(** * pretty-photos: ordering photos by creation time

    A shallow embedding of [pretty-photos/order_photos.py] and
    [pretty-photos/utils.py], and the properties of the time registry, the
    eligibility filter, the interpolation pass and output placement.

    Conventions of the embedding.
    - A Python [str] is a [string]; the characters are the ASCII ones (file
      names and EXIF dates of cameras), one [ascii] per character.
    - A [Path] of the registry is a child of the single input directory
      ([input_dir.iterdir()]); it is identified with its final component, and
      the ordering of such paths is the ordering of their names.
    - [Optional[str]] is [option string]; the dictionary [photo_times] is a
      [gmap Path (option string)].
    - An exception is a value of [exn]; a computation that may raise and that
      changes the dictionary, the random generator or the log is a function of
      the [world]. *)

From Stdlib Require Import ZArith String Ascii List Lia Bool DecimalString.
From stdpp Require Import gmap strings list sorting.

Local Open Scope string_scope.
Local Open Scope Z_scope.

(** ** Python strings *)

Module PyStr.

Definition is_digit (c : ascii) : bool :=
  let n := nat_of_ascii c in (48 <=? n)%nat && (n <=? 57)%nat.

(** The blanks that [int] skips around the digits: TAB..CR and the space. *)
Definition is_space (c : ascii) : bool :=
  let n := nat_of_ascii c in
  ((9 <=? n)%nat && (n <=? 13)%nat) || (n =? 32)%nat.

Definition digit_val (c : ascii) : Z := Z.of_nat (nat_of_ascii c) - 48.

Definition digit_char (k : Z) : ascii := ascii_of_nat (Z.to_nat (k + 48)).

(** [s[:n]] and [s[n:]] *)
Fixpoint take (n : nat) (s : string) : string :=
  match n, s with
  | S n', String c s' => String c (take n' s')
  | _, _ => EmptyString
  end.

Fixpoint drop (n : nat) (s : string) : string :=
  match n, s with
  | S n', String _ s' => drop n' s'
  | _, _ => s
  end.

(** [s.endswith(suf)]: some tail of [s] is [suf]. *)
Fixpoint endswith (s suf : string) : bool :=
  String.eqb s suf ||
  match s with
  | EmptyString => false
  | String _ s' => endswith s' suf
  end.

(** [s.split(sep)] for a non-empty separator: the occurrences of [sep] are
    found from the left and do not overlap.  [skip] counts the characters of
    an occurrence still to be passed over, [cur] is the piece being read. *)
Fixpoint split_go (sep : string) (skip : nat) (cur s : string) : list string :=
  match s with
  | EmptyString => [cur]
  | String c s' =>
      match skip with
      | S k => split_go sep k cur s'
      | O =>
          if String.prefix sep s
          then cur :: split_go sep (String.length sep - 1) EmptyString s'
          else split_go sep 0 (cur ++ String c EmptyString) s'
      end
  end.

Definition split (s sep : string) : list string := split_go sep 0 EmptyString s.

(** [sep.join(pieces)] *)
Fixpoint join (sep : string) (pieces : list string) : string :=
  match pieces with
  | [] => EmptyString
  | [p] => p
  | p :: ps => p ++ sep ++ join sep ps
  end.

(** [s.replace(old, new)] for a non-empty [old] *)
Definition replace (s old new : string) : string := join new (split s old).

(** [s.rfind(c)] for a character, [None] for -1 *)
Fixpoint rfind (c : ascii) (s : string) : option nat :=
  match s with
  | EmptyString => None
  | String a s' =>
      match rfind c s' with
      | Some i => Some (S i)
      | None => if Ascii.eqb a c then Some O else None
      end
  end.

Fixpoint lstrip (s : string) : string :=
  match s with
  | String c s' => if is_space c then lstrip s' else s
  | EmptyString => EmptyString
  end.

Fixpoint rstrip (s : string) : string :=
  match s with
  | EmptyString => EmptyString
  | String c s' =>
      match rstrip s' with
      | EmptyString => if is_space c then EmptyString else String c EmptyString
      | t => String c t
      end
  end.

Definition strip (s : string) : string := lstrip (rstrip s).

(** The digits of a decimal literal: digits, with single underscores between
    digits.  [after_digit] tells whether the character before was a digit. *)
Fixpoint int_digits (after_digit : bool) (s : string) : bool :=
  match s with
  | EmptyString => after_digit
  | String c s' =>
      if is_digit c then int_digits true s'
      else if Ascii.eqb c "_" && after_digit then int_digits false s'
      else false
  end.

(** Whether [int(s)] returns (it raises [ValueError] otherwise): blanks
    around, an optional sign, then the digits. *)
Definition int_accepts (s : string) : bool :=
  match strip s with
  | String c s' =>
      if Ascii.eqb c "+" || Ascii.eqb c "-" then int_digits false s'
      else int_digits false (String c s')
  | EmptyString => false
  end.

(** The value of a run of decimal digits, most significant first. *)
Fixpoint digits_value (acc : Z) (s : string) : Z :=
  match s with
  | EmptyString => acc
  | String c s' => digits_value (10 * acc + digit_val c) s'
  end.

End PyStr.

(** ** Paths ([pathlib]) and [utils.py] *)

Definition Path := string.

(** [PurePath.suffix] and [PurePath.stem]: the last dot of the name counts
    when it is neither the first nor the last character. *)
Definition path_suffix (name : Path) : string :=
  match PyStr.rfind "." name with
  | Some i =>
      if (0 <? i)%nat && (i <? String.length name - 1)%nat
      then PyStr.drop i name else EmptyString
  | None => EmptyString
  end.

Definition path_stem (name : Path) : string :=
  match PyStr.rfind "." name with
  | Some i =>
      if (0 <? i)%nat && (i <? String.length name - 1)%nat
      then PyStr.take i name else name
  | None => name
  end.

Definition get_extension_from_path (path : Path) : string :=
  PyStr.drop 1 (path_suffix path).

(** ** Constants of [order_photos.py] *)

Definition _PHOTO_EXTENSIONS : list string :=
  ["JPG"; "jpg"; "JPEG"; "jpeg"; "PNG"; "png"].
Definition _VIDEO_EXTENSIONS : list string := ["MOV"; "mov"].

Definition _DATE_SPLIT_CHAR : string := "-".
Definition _DATE_TIME_SPLIT_CHAR : string := "_".

Definition _COMMON_INTERPOLATION_PREFIX : string := "IMG_".
Definition _INTERPOLATED_SUFFIX : string := "_interpolated_time".

Definition _SPLIT_INTO_YEARS : bool := true.

(** ** Eligibility filter *)

(** [int(photo_path.stem.split('IMG_')[1].split('.')[0])]: an [IndexError]
    when the stem has no ['IMG_'], a [ValueError] when the piece is no
    integer; both give [False]. *)
Definition is_valid_for_interpolation (photo_path : Path) : bool :=
  match nth_error (PyStr.split (path_stem photo_path) _COMMON_INTERPOLATION_PREFIX) 1 with
  | None => false
  | Some piece =>
      match PyStr.split piece "." with
      | first :: _ => PyStr.int_accepts first
      | [] => false
      end
  end.

(** [try_remove_interpolated_suffix] *)
Definition try_remove_interpolated_suffix (time : string) : string :=
  if negb (PyStr.endswith time _INTERPOLATED_SUFFIX) then time
  else match PyStr.split time _INTERPOLATED_SUFFIX with
       | first :: _ => first
       | [] => time
       end.

(** ** Dates and times ([datetime], [_strptime]) *)

Module PyTime.

Record datetime := mkDatetime {
  year : Z; month : Z; day : Z; hour : Z; minute : Z; second : Z
}.

Definition MINYEAR : Z := 1.
Definition MAXYEAR : Z := 9999.

Definition _is_leap (y : Z) : bool :=
  (y mod 4 =? 0) && (negb (y mod 100 =? 0) || (y mod 400 =? 0)).

Definition _DAYS_IN_MONTH (m : Z) : Z :=
  match m with
  | 1 => 31 | 2 => 28 | 3 => 31 | 4 => 30 | 5 => 31 | 6 => 30
  | 7 => 31 | 8 => 31 | 9 => 30 | 10 => 31 | 11 => 30 | 12 => 31
  | _ => -1
  end.

Definition _DAYS_BEFORE_MONTH (m : Z) : Z :=
  match m with
  | 1 => 0 | 2 => 31 | 3 => 59 | 4 => 90 | 5 => 120 | 6 => 151
  | 7 => 181 | 8 => 212 | 9 => 243 | 10 => 273 | 11 => 304 | 12 => 334
  | _ => -1
  end.

Definition _days_in_month (y m : Z) : Z :=
  if (m =? 2) && _is_leap y then 29 else _DAYS_IN_MONTH m.

Definition _days_before_year (y : Z) : Z :=
  let y := y - 1 in y * 365 + y / 4 - y / 100 + y / 400.

Definition _days_before_month (y m : Z) : Z :=
  _DAYS_BEFORE_MONTH m + (if (m >? 2) && _is_leap y then 1 else 0).

Definition _ymd2ord (y m d : Z) : Z :=
  _days_before_year y + _days_before_month y m + d.

Definition _DI400Y : Z := 146097.
Definition _DI100Y : Z := 36524.
Definition _DI4Y : Z := 1461.

Definition _ord2ymd (n : Z) : Z * Z * Z :=
  let n := n - 1 in
  let n400 := n / _DI400Y in
  let n := n mod _DI400Y in
  let y := n400 * 400 + 1 in
  let n100 := n / _DI100Y in
  let n := n mod _DI100Y in
  let n4 := n / _DI4Y in
  let n := n mod _DI4Y in
  let n1 := n / 365 in
  let n := n mod 365 in
  let y := y + n100 * 100 + n4 * 4 + n1 in
  if (n1 =? 4) || (n100 =? 4) then (y - 1, 12, 31)
  else
    let leapyear := (n1 =? 3) && (negb (n4 =? 24) || (n100 =? 3)) in
    let m := Z.shiftr (n + 50) 5 in
    let preceding :=
      _DAYS_BEFORE_MONTH m + (if (m >? 2) && leapyear then 1 else 0) in
    if preceding >? n then
      let m := m - 1 in
      let preceding :=
        preceding - (_DAYS_IN_MONTH m + (if (m =? 2) && leapyear then 1 else 0)) in
      (y, m, n - preceding + 1)
    else (y, m, n - preceding + 1).

(** The checks of the [datetime] constructor ([_check_date_fields],
    [_check_time_fields]); it raises [ValueError] when they fail. *)
Definition valid (d : datetime) : bool :=
  (MINYEAR <=? year d) && (year d <=? MAXYEAR) &&
  (1 <=? month d) && (month d <=? 12) &&
  (1 <=? day d) && (day d <=? _days_in_month (year d) (month d)) &&
  (0 <=? hour d) && (hour d <=? 23) &&
  (0 <=? minute d) && (minute d <=? 59) &&
  (0 <=? second d) && (second d <=? 59).

Definition new_datetime (y m d hh mm ss : Z) : option datetime :=
  let dt := mkDatetime y m d hh mm ss in
  if valid dt then Some dt else None.

(** [(self - datetime(1970, 1, 1)) // timedelta(0, 1)] *)
Definition seconds_since_epoch (d : datetime) : Z :=
  (_ymd2ord (year d) (month d) (day d) - 719163) * 86400
  + hour d * 3600 + minute d * 60 + second d.

(** The broken-down time of [t] seconds since the epoch ([time.gmtime]),
    as a [datetime] when the year is in range. *)
Definition of_seconds (t : Z) : option datetime :=
  let days := t / 86400 in
  let rem := t mod 86400 in
  let '(y, m, d) := _ord2ymd (days + 719163) in
  new_datetime y m d (rem / 3600) ((rem mod 3600) / 60) (rem mod 60).

(** [datetime.utcfromtimestamp(t)] for an integer [t]; [None] is the
    [ValueError] "year is out of range". *)
Definition utcfromtimestamp (t : Z) : option datetime := of_seconds t.

(** The local zone is a constant offset of [utcoffset] seconds east of UTC:
    [time.localtime(u)] is the broken-down time of [u + utcoffset]. *)
Section LocalZone.
Variable utcoffset : Z.

(** [local(u)] of [datetime._mktime] *)
Definition local (u : Z) : option Z :=
  match of_seconds (u + utcoffset) with
  | Some d => Some (seconds_since_epoch d)
  | None => None
  end.

(** [datetime._mktime] of a naive datetime with [fold = 0] *)
Definition _mktime (d : datetime) : option Z :=
  let t := seconds_since_epoch d in
  match local t with
  | None => None
  | Some lt =>
      let a := lt - t in
      let u1 := t - a in
      match local u1 with
      | None => None
      | Some t1 =>
          let continue (b : Z) :=
            let u2 := t - b in
            match local u2 with
            | None => None
            | Some t2 =>
                if t2 =? t then Some u2
                else if t1 =? t then Some u1
                else Some (Z.max u1 u2)
            end in
          if t1 =? t then
            let u2 := u1 - 24 * 3600 in
            match local u2 with
            | None => None
            | Some lt2 =>
                let b := lt2 - u2 in
                if a =? b then Some u1 else continue b
            end
          else
            let b := t1 - u1 in continue b
      end
  end.

(** [int(d.timestamp())] of a naive datetime without microseconds *)
Definition timestamp (d : datetime) : option Z := _mktime d.
End LocalZone.

(** *** [strptime] with the format ['%Y-%m-%d_%H:%M:%S']

    [_strptime] turns the format into a regular expression, a sequence of
    groups of alternatives and of literal characters, and matches it at the
    start of the text, the alternatives of a group in their order. *)

Definition cls := ascii -> bool.

Inductive re_item :=
  | Lit (c : ascii)
  | Group (alts : list (list cls)).

Definition range (lo hi : ascii) : cls :=
  fun c => (nat_of_ascii lo <=? nat_of_ascii c)%nat
           && (nat_of_ascii c <=? nat_of_ascii hi)%nat.
Definition one (a : ascii) : cls := fun c => Ascii.eqb c a.
Definition digit : cls := PyStr.is_digit.

Definition re_Y : re_item := Group [[digit; digit; digit; digit]].
Definition re_m : re_item :=
  Group [[one "1"; range "0" "2"]; [one "0"; range "1" "9"]; [range "1" "9"]].
Definition re_d : re_item :=
  Group [[one "3"; range "0" "1"]; [range "1" "2"; digit];
         [one "0"; range "1" "9"]; [range "1" "9"]; [one " "; range "1" "9"]].
Definition re_H : re_item :=
  Group [[one "2"; range "0" "3"]; [range "0" "1"; digit]; [digit]].
Definition re_M : re_item := Group [[range "0" "5"; digit]; [digit]].
Definition re_S : re_item :=
  Group [[one "6"; range "0" "1"]; [range "0" "5"; digit]; [digit]].

Definition _FILE_TIME_RE : list re_item :=
  [re_Y; Lit "-"; re_m; Lit "-"; re_d; Lit "_"; re_H; Lit ":"; re_M; Lit ":"; re_S].

(** The text matched by a sequence of character classes, and the rest. *)
Fixpoint take_classes (cs : list cls) (s : string) : option (string * string) :=
  match cs with
  | [] => Some (EmptyString, s)
  | c :: cs' =>
      match s with
      | String a s' =>
          if c a then
            match take_classes cs' s' with
            | Some (txt, rest) => Some (String a txt, rest)
            | None => None
            end
          else None
      | EmptyString => None
      end
  end.

Fixpoint first_alt {A} (f : list cls -> option A) (alts : list (list cls)) : option A :=
  match alts with
  | [] => None
  | alt :: alts' =>
      match f alt with
      | Some r => Some r
      | None => first_alt f alts'
      end
  end.

(** The texts of the groups and the unmatched rest of the text. *)
Fixpoint rmatch (re : list re_item) (s : string) : option (list string * string) :=
  match re with
  | [] => Some ([], s)
  | Lit c :: re' =>
      match s with
      | String a s' => if Ascii.eqb a c then rmatch re' s' else None
      | EmptyString => None
      end
  | Group alts :: re' =>
      first_alt (fun alt =>
        match take_classes alt s with
        | Some (txt, s') =>
            match rmatch re' s' with
            | Some (groups, rest) => Some (txt :: groups, rest)
            | None => None
            end
        | None => None
        end) alts
  end.

(** [int] of the text of a group *)
Definition int_of (txt : string) : Z := PyStr.digits_value 0 (PyStr.lstrip txt).

(** [datetime.strptime(s, '%Y-%m-%d_%H:%M:%S')]; [None] is a [ValueError]:
    no match, unconverted data remains, or a field out of range. *)
Definition strptime (s : string) : option datetime :=
  match rmatch _FILE_TIME_RE s with
  | Some ([gY; gm; gd; gH; gM; gS], EmptyString) =>
      new_datetime (int_of gY) (int_of gm) (int_of gd)
                   (int_of gH) (int_of gM) (int_of gS)
  | _ => None
  end.

Definition pad2 (v : Z) : string :=
  String (PyStr.digit_char (v / 10)) (String (PyStr.digit_char (v mod 10)) EmptyString).

Definition pad4 (v : Z) : string :=
  String (PyStr.digit_char (v / 1000))
    (String (PyStr.digit_char (v / 100 mod 10))
      (String (PyStr.digit_char (v / 10 mod 10))
        (String (PyStr.digit_char (v mod 10)) EmptyString))).

(** [d.strftime('%Y-%m-%d_%H:%M:%S')], the year on four digits *)
Definition strftime (d : datetime) : string :=
  pad4 (year d) ++ "-" ++ pad2 (month d) ++ "-" ++ pad2 (day d) ++ "_"
  ++ pad2 (hour d) ++ ":" ++ pad2 (minute d) ++ ":" ++ pad2 (second d).

End PyTime.

(** ** Exceptions, the world and computations *)

Inductive exn :=
  | KeyError | TypeError | ValueError | IndexError
  | FileNotFoundError | FileExistsError
  | OtherError (what : string).

Inductive result (A : Type) :=
  | Ok (a : A)
  | Raise (e : exn).
Arguments Ok {A} a.
Arguments Raise {A} e.

(** The records of [_LOGGER], one constructor per message of the source. *)
Inductive log_record :=
  | Warn_skip_not_file (path : Path)
  | Info_parse_found (time : option string) (photo : Path)
  | Info_parse_missing (photo : Path)
  | Info_parse_extension (ext : string)
  | Info_parse_summary (found missing : nat)
  | Info_get_random (min_time max_time : string)
  | Info_skip_not_valid (photo : Path)
  | Info_no_previous (photo : Path)
  | Info_no_next (photo : Path)
  | Info_no_time (photo : Path)
  | Info_set_time (time : string) (photo : Path)
  | Info_interpolate_summary (interpolated failed : nat)
  | Info_save_with (dir : list string)
  | Info_save_without (dir : list string)
  | Info_dots.

(** The effects of [utils.try_mkdir] and [utils.copy_file]; an output path is
    the list of its components. *)
Inductive fs_op :=
  | Mkdir (dir : list string)
  | Copy (input_path : Path) (output_path : list string).

#[export] Instance exn_eq_dec : EqDecision exn.
Proof. solve_decision. Defined.
#[export] Instance log_record_eq_dec : EqDecision log_record.
Proof. solve_decision. Defined.
#[export] Instance fs_op_eq_dec : EqDecision fs_op.
Proof. solve_decision. Defined.

(** What a run reads and changes: the dictionary [photo_times] (one object,
    shared by the three passes), the outputs to come of the random generator,
    the log and the file operations, both latest first. *)
Record world := mkWorld {
  photo_times : gmap Path (option string);
  random : nat -> Z;
  logged : list log_record;
  fs : list fs_op
}.

Definition M (A : Type) : Type := world -> result A * world.

Definition ret {A} (a : A) : M A := fun w => (Ok a, w).
Definition raise {A} (e : exn) : M A := fun w => (Raise e, w).
Definition bind {A B} (c : M A) (k : A -> M B) : M B :=
  fun w => match c w with
           | (Ok a, w') => k a w'
           | (Raise e, w') => (Raise e, w')
           end.

(** [try: c] with the outcome as a value, for the [except] clauses *)
Definition attempt {A} (c : M A) : M (result A) :=
  fun w => let '(r, w') := c w in (Ok r, w').

#[export] Instance M_ret : MRet M := @ret.
#[export] Instance M_bind : MBind M := fun A B k c => bind c k.

(** [None] of a library call is the [ValueError] it raises. *)
Definition or_ValueError {A} (o : option A) : M A :=
  match o with
  | Some a => ret a
  | None => raise ValueError
  end.

Definition info (r : log_record) : M unit :=
  fun w => (Ok tt, mkWorld (photo_times w) (random w) (r :: logged w) (fs w)).

(** [photo_times[key]] *)
Definition getitem (key : Path) : M (option string) :=
  fun w => match photo_times w !! key with
           | Some v => (Ok v, w)
           | None => (Raise KeyError, w)
           end.

(** [photo_times[key] = value] *)
Definition setitem (key : Path) (value : option string) : M unit :=
  fun w => (Ok tt, mkWorld (<[key := value]> (photo_times w)) (random w) (logged w) (fs w)).

(** [random.randint(a, b)]: a [ValueError] on an empty range, else the next
    output of the generator brought into [a..b]. *)
Definition randint (a b : Z) : M Z :=
  fun w =>
    if b <? a then (Raise ValueError, w)
    else (Ok (a + random w O mod (b - a + 1)),
          mkWorld (photo_times w) (fun i => random w (S i)) (logged w) (fs w)).

(** [photo_times.items()] and [photo_times.keys()], in the order of
    [map_to_list]: the embedding does not keep the order of insertion. *)
Definition dict_items : M (list (Path * option string)) :=
  fun w => (Ok (map_to_list (photo_times w)), w).

Definition dict_keys : M (list Path) :=
  fun w => (Ok (map_to_list (photo_times w)).*1, w).

Definition fs_do (op : fs_op) : M unit :=
  fun w => (Ok tt, mkWorld (photo_times w) (random w) (logged w) (op :: fs w)).

(** [for x in xs: acc = body(acc, x)] *)
Fixpoint for_each {A S} (body : S -> A -> M S) (xs : list A) (acc : S) : M S :=
  match xs with
  | [] => ret acc
  | x :: xs' => acc' ← body acc x; for_each body xs' acc'
  end.

(** ** [order_photos.py] *)

Definition _FILE_TIME_FMT_parse := PyTime.strptime.
Definition _FILE_TIME_FMT_format := PyTime.strftime.

(** The order of [sorted] on the paths of one directory: the order of the
    names, character by character. *)
Definition path_le (p q : Path) : Prop := String.leb p q = true.
#[export] Instance path_le_dec p q : Decision (path_le p q).
Proof. unfold path_le. apply _. Defined.

Section OrderPhotos.

(** The offset of the local zone, in seconds east of UTC. *)
Variable utcoffset : Z.

Definition get_random_time_between (min_time max_time : string) : M string :=
  info (Info_get_random min_time max_time);;
  min_dt ← or_ValueError (PyTime.strptime min_time);
  min_t ← or_ValueError (PyTime.timestamp utcoffset min_dt);
  let min_ts := min_t + 1 in
  max_dt ← or_ValueError (PyTime.strptime max_time);
  max_t ← or_ValueError (PyTime.timestamp utcoffset max_dt);
  let max_ts := max_t - 1 in
  if max_ts <? min_ts then raise ValueError
  else
    r ← randint (min_ts + 1) (max_ts - 1);
    time_between ← or_ValueError (PyTime.utcfromtimestamp r);
    ret (PyTime.strftime time_between).

Definition get_year_from_time (time : string) : result Z :=
  match PyTime.strptime time with
  | Some d => Ok (PyTime.year d)
  | None => Raise ValueError
  end.

(** The two neighbour loops of [interpolate_photo_times]: the time of the
    first photo of [photos] that is valid for interpolation and has a time;
    [None] when the loop ends without [break]. *)
Fixpoint find_neighbor_time (photos : list Path) : M (option string) :=
  match photos with
  | [] => ret None
  | photo :: rest =>
      if negb (is_valid_for_interpolation photo) then find_neighbor_time rest
      else
        time ← getitem photo;
        match time with
        | Some t => ret (Some t)
        | None => find_neighbor_time rest
        end
  end.

Definition enumerate {A} (l : list A) : list (nat * A) :=
  combine (seq 0 (length l)) l.

Record counters := mkCounters { num_interpolated : nat; num_failed : nat }.

Definition failed (c : counters) : counters :=
  mkCounters (num_interpolated c) (S (num_failed c)).
Definition interpolated (c : counters) : counters :=
  mkCounters (S (num_interpolated c)) (num_failed c).

(** The body of the main loop of [interpolate_photo_times]. *)
Definition interpolate_body (sorted_photos : list Path)
    (c : counters) (item : nat * Path) : M counters :=
  let '(photo_ind, photo_path) := item in
  photo_time ← getitem photo_path;
  match photo_time with
  | Some _ => ret c
  | None =>
    if negb (is_valid_for_interpolation photo_path) then
      info (Info_skip_not_valid photo_path);; ret c
    else
      prev_time ← find_neighbor_time (rev (firstn photo_ind sorted_photos));
      match prev_time with
      | None => info (Info_no_previous photo_path);; ret (failed c)
      | Some prev_time =>
        next_time ← find_neighbor_time (skipn (photo_ind + 1) sorted_photos);
        match next_time with
        | None => info (Info_no_next photo_path);; ret (failed c)
        | Some next_time =>
          let prev_time := try_remove_interpolated_suffix prev_time in
          outcome ← attempt (get_random_time_between prev_time next_time);
          match outcome with
          | Raise ValueError => info (Info_no_time photo_path);; ret (failed c)
          | Raise e => raise e
          | Ok photo_time =>
              setitem photo_path (Some (photo_time ++ _INTERPOLATED_SUFFIX));;
              info (Info_set_time photo_time photo_path);;
              ret (interpolated c)
          end
        end
      end
  end.

Definition interpolate_photo_times : M unit :=
  keys ← dict_keys;
  let sorted_photos := merge_sort path_le keys in
  c ← for_each (interpolate_body sorted_photos)
               (enumerate sorted_photos) (mkCounters 0 0);
  info (Info_interpolate_summary (num_interpolated c) (num_failed c)).


(** *** Reading the input directory *)

(** What the run reads from outside: the entries of the input directory in
    the order of [iterdir()], which of them are files, and for each path what
    the two metadata readers give, a string or an exception:
    [Image.open(path)._getexif()[36867]] and
    [ffmpeg.probe(path)['streams'][0]['tags']['creation_time']]. *)
Record directory := mkDirectory {
  entries : list Path;
  is_file : Path -> bool;
  exif_36867 : Path -> result string;
  probe_creation_time : Path -> result string
}.

Variable input_dir : directory.

Definition lift {A} (r : result A) : M A := fun w => (r, w).

Definition get_photo_creation_time (path : Path) : M string :=
  lift (exif_36867 input_dir path).

Definition get_video_creation_time (path : Path) : M string :=
  creation_time ← lift (probe_creation_time input_dir path);
  ret (PyStr.take 19 creation_time).

Record parse_counters := mkParseCounters {
  num_dates_found : nat; num_dates_missing : nat
}.

(** The body of the loop of [parse_photo_times]. *)
Definition parse_body (c : parse_counters) (photo_path : Path) : M parse_counters :=
  if negb (is_file input_dir photo_path) then
    info (Warn_skip_not_file photo_path);; ret c
  else
    let photo_ext := get_extension_from_path photo_path in
    if bool_decide (photo_ext ∈ _PHOTO_EXTENSIONS) then
      outcome ← attempt (get_photo_creation_time photo_path);
      match outcome with
      | Ok photo_time =>
          let photo_time :=
            PyStr.replace (PyStr.take 10 photo_time) ":" _DATE_SPLIT_CHAR
            ++ PyStr.drop 10 photo_time in
          let photo_time := PyStr.replace photo_time " " _DATE_TIME_SPLIT_CHAR in
          info (Info_parse_missing photo_path);;
          setitem photo_path (Some photo_time);;
          ret (mkParseCounters (S (num_dates_found c)) (num_dates_missing c))
      | Raise KeyError | Raise TypeError =>
          info (Info_parse_found None photo_path);;
          setitem photo_path None;;
          ret (mkParseCounters (num_dates_found c) (S (num_dates_missing c)))
      | Raise e => raise e
      end
    else if bool_decide (photo_ext ∈ _VIDEO_EXTENSIONS) then
      video_time ← get_video_creation_time photo_path;
      let video_time := PyStr.replace video_time "T" _DATE_TIME_SPLIT_CHAR in
      setitem photo_path (Some video_time);;
      ret c
    else
      info (Info_parse_extension photo_ext);; ret c.

(** [photo_times = {}]: the dictionary of the run starts empty. *)
Definition new_dict : M unit :=
  fun w => (Ok tt, mkWorld ∅ (random w) (logged w) (fs w)).

Definition parse_photo_times : M unit :=
  new_dict;;
  c ← for_each parse_body (entries input_dir) (mkParseCounters 0 0);
  info (Info_parse_summary (num_dates_found c) (num_dates_missing c)).

(** *** Output placement *)

Definition try_mkdir (dir_path : list string) : M (list string) :=
  fs_do (Mkdir dir_path);; ret dir_path.

Definition copy_file (input_path : Path) (output_path : list string) : M unit :=
  fs_do (Copy input_path output_path).

(** [str(n)] of an integer *)
Definition str_of_int (n : Z) : string := NilZero.string_of_int (Z.to_int n).

(** The body of the loop of [save_photos_with_times]. *)
Definition save_body (photos_dir_with_times photos_dir_without_times : list string)
    (_ : unit) (item : Path * option string) : M unit :=
  let '(photo_path, photo_time) := item in
  let photo_ext := get_extension_from_path photo_path in
  output_path ←
    match photo_time with
    | Some photo_time =>
        let photo_name := photo_time ++ "." ++ photo_ext in
        output_path ←
          (if _SPLIT_INTO_YEARS then
             photo_year ← lift (get_year_from_time
                                  (try_remove_interpolated_suffix photo_time));
             try_mkdir (photos_dir_with_times ++ [str_of_int photo_year])%list
           else ret photos_dir_with_times);
        ret (output_path ++ [photo_name])%list
    | None =>
        let photo_name := path_stem photo_path ++ "." ++ photo_ext in
        ret (photos_dir_without_times ++ [photo_name])%list
    end;
  copy_file photo_path output_path.

Definition save_photos_with_times (output_dir : list string) : M unit :=
  photos_dir_with_times ← try_mkdir output_dir;
  photos_dir_without_times ← try_mkdir (output_dir ++ ["without-time"])%list;
  info (Info_save_with photos_dir_with_times);;
  info (Info_save_without photos_dir_without_times);;
  info Info_dots;;
  items ← dict_items;
  for_each (save_body photos_dir_with_times photos_dir_without_times) items tt.

(** [main], after the arguments are read: whether the two directories exist
    is given. *)
Definition main (input_exists output_exists : bool) (output_dir : list string) : M unit :=
  if negb input_exists then raise FileNotFoundError
  else if output_exists then raise FileExistsError
  else
    parse_photo_times;;
    interpolate_photo_times;;
    save_photos_with_times output_dir.

End OrderPhotos.

(** ** Vocabulary of the statements *)

(** The least and the greatest timestamp with a year in [MINYEAR..MAXYEAR]. *)
Definition MIN_TS : Z := -62135596800.
Definition MAX_TS : Z := 253402300799.

Definition representable (t : Z) : bool := (MIN_TS <=? t) && (t <=? MAX_TS).



(** [int(datetime.strptime(s, _FILE_TIME_FMT).timestamp())] *)
Definition parse_timestamp (utcoffset : Z) (s : string) : option Z :=
  match PyTime.strptime s with
  | Some d => PyTime.timestamp utcoffset d
  | None => None
  end.


(** The arguments of [random.randint] in [get_random_time_between], when
    both times are read and the range is not empty. *)
Definition pool (utcoffset : Z) (min_time max_time : string) : option (Z * Z) :=
  match parse_timestamp utcoffset min_time, parse_timestamp utcoffset max_time with
  | Some a, Some b =>
      let min_ts := a + 1 in
      let max_ts := b - 1 in
      if max_ts <? min_ts then None
      else if max_ts - 1 <? min_ts + 1 then None
      else Some (min_ts + 1, max_ts - 1)
  | _, _ => None
  end.

(** The time that a neighbour loop finds in the dictionary [m]. *)
Fixpoint neighbor_time (m : gmap Path (option string)) (photos : list Path)
    : option string :=
  match photos with
  | [] => None
  | photo :: rest =>
      if is_valid_for_interpolation photo then
        match m !! photo with
        | Some (Some t) => Some t
        | _ => neighbor_time m rest
        end
      else neighbor_time m rest
  end.

(** [m'] is [m] with some absent times of valid photos filled by tagged
    times, each the formatted string of a valid time. *)
Definition fills (m m' : gmap Path (option string)) : Prop :=
  forall k, m' !! k = m !! k \/
    (m !! k = Some None /\ is_valid_for_interpolation k = true /\
     exists d, PyTime.valid d = true /\
       m' !! k = Some (Some (PyTime.strftime d ++ _INTERPOLATED_SUFFIX))).

(** A world with the dictionary [m], the generator [r], an empty log and no
    file operation yet. *)
Definition world_of (m : gmap Path (option string)) (r : nat -> Z) : world :=
  mkWorld m r [] [].

(** The dictionary after the interpolation pass on [m]. *)
Definition interpolate (utcoffset : Z) (r : nat -> Z)
    (m : gmap Path (option string)) : gmap Path (option string) :=
  photo_times (interpolate_photo_times utcoffset (world_of m r)).2.

Local Open Scope list_scope.

(** The worlds that the computations step through. *)
Definition with_log (r : log_record) (w : world) : world :=
  mkWorld (photo_times w) (random w) (r :: logged w) (fs w).

Definition after_draw (w : world) : world :=
  mkWorld (photo_times w) (fun i => random w (S i)) (logged w) (fs w).

Definition draw (lo hi : Z) (w : world) : Z := lo + random w O mod (hi - lo + 1).

Definition with_time (k : Path) (t : string) (w : world) : world :=
  mkWorld (<[k := Some t]> (photo_times w)) (random w) (logged w) (fs w).

Definition sorted_keys (m : gmap Path (option string)) : list Path :=
  merge_sort path_le (map_to_list m).*1.

Definition with_fs (op : fs_op) (w : world) : world :=
  mkWorld (photo_times w) (random w) (logged w) (op :: fs w).

(** The file name that output placement gives to an entry. *)
Definition output_name (photo_path : Path) (photo_time : option string) : string :=
  match photo_time with
  | Some t => t +:+ "." +:+ get_extension_from_path photo_path
  | None => path_stem photo_path +:+ "." +:+ get_extension_from_path photo_path
  end.

(** The photo [p], between [pre] and [post], cannot be given a time: a
    neighbour is missing or the interval of the two neighbours has no room. *)
Definition blocked (tz : Z) (m : gmap Path (option string))
    (pre : list Path) (post : list Path) : Prop :=
  neighbor_time m (rev pre) = None \/ neighbor_time m post = None \/
  exists prev_time next_time,
    neighbor_time m (rev pre) = Some prev_time /\
    neighbor_time m post = Some next_time /\
    pool tz (try_remove_interpolated_suffix prev_time) next_time = None.

(** Every valid photo of [pre] that is still without a time is blocked. *)
Definition settled (tz : Z) (m : gmap Path (option string))
    (pre post : list Path) : Prop :=
  forall pre1 k pre2, pre = pre1 ++ k :: pre2 ->
    m !! k = Some None -> is_valid_for_interpolation k = true ->
    blocked tz m pre1 (pre2 ++ post).

Definition with_entry (k : Path) (v : option string) (w : world) : world :=
  mkWorld (<[k := v]> (photo_times w)) (random w) (logged w) (fs w).

(** The canonical string of the raw time of a photo and of a video. *)
Definition normalize_photo_time (photo_time : string) : string :=
  PyStr.replace
    (PyStr.replace (PyStr.take 10 photo_time) ":" _DATE_SPLIT_CHAR
     +:+ PyStr.drop 10 photo_time)
    " " _DATE_TIME_SPLIT_CHAR.

Definition normalize_video_time (creation_time : string) : string :=
  PyStr.replace (PyStr.take 19 creation_time) "T" _DATE_TIME_SPLIT_CHAR.

Definition found_one (c : parse_counters) : parse_counters :=
  mkParseCounters (S (num_dates_found c)) (num_dates_missing c).

Definition missing_one (c : parse_counters) : parse_counters :=
  mkParseCounters (num_dates_found c) (S (num_dates_missing c)).

(** Three photos in a row, the middle one without a time. *)
Definition scene (t1 : string) (t3 : string) : gmap Path (option string) :=
  <["IMG_0001.jpg" := Some t1]>
    (<["IMG_0002.jpg" := None]> (<["IMG_0003.jpg" := Some t3]> ∅)).

(** Small inputs. *)
Definition tagged_world : world :=
  world_of {["IMG_0002.jpg" := Some "2021-01-01_10:00:05_interpolated_time"]}
           (fun _ => 0).


Definition two_seconds : world :=
  world_of (scene "2021-01-01_10:00:00" "2021-01-01_10:00:02") (fun _ => 3).

Definition some_directory : directory :=
  mkDirectory ["IMG_1.jpg"; "IMG_2.jpg"; "clip.MOV"]
    (fun _ => true)
    (fun p => if String.eqb p "IMG_1.jpg" then Ok "2021:01:01 10:00:00"
              else Raise KeyError)
    (fun _ => Raise (OtherError "ffmpeg.Error")).

(** Proof devices: the month and day of [_ord2ymd], and the outcome of a
    group of the expression of [strptime]. *)
Definition month_day (leapyear : bool) (n : Z) : Z * Z :=
  let m := Z.shiftr (n + 50) 5 in
  let preceding :=
    PyTime._DAYS_BEFORE_MONTH m + (if (m >? 2) && leapyear then 1 else 0) in
  if preceding >? n then
    let m := m - 1 in
    let preceding :=
      preceding - (PyTime._DAYS_IN_MONTH m + (if (m =? 2) && leapyear then 1 else 0)) in
    (m, n - preceding + 1)
  else (m, n - preceding + 1).

Definition month_day_check (leapyear : bool) (n : Z) : bool :=
  let '(m, d) := month_day leapyear n in
  (1 <=? m) && (m <=? 12) && (1 <=? d)
  && (d <=? (if (m =? 2) && leapyear then 29 else PyTime._DAYS_IN_MONTH m))
  && (PyTime._DAYS_BEFORE_MONTH m + (if (m >? 2) && leapyear then 1 else 0) + d =? n + 1).

Abbreviation dc := PyStr.digit_char.

Definition two (a b : Z) : string := String (dc a) (String (dc b) EmptyString).

Definition four (a b c d : Z) : string :=
  String (dc a) (String (dc b) (String (dc c) (String (dc d) EmptyString))).

Definition in_range (lo hi a b : Z) : bool :=
  (lo <=? 10 * a + b) && (10 * a + b <=? hi).

Definition group_result (ok : bool) (txt : string)
    (k : option (list string * string)) : option (list string * string) :=
  if ok then match k with
             | Some (groups, rest) => Some (txt :: groups, rest)
             | None => None
             end
  else None.

Definition group_then_lit (alts : list (list PyTime.cls)) (c : ascii)
    (k : string -> option (list string * string)) (s : string) :=
  PyTime.first_alt (fun alt =>
    match PyTime.take_classes alt s with
    | Some (txt, String a s') =>
        if Ascii.eqb a c then group_result true txt (k s') else None
    | _ => None
    end) alts.

(** ** Vocabulary of the further properties *)

Import PyTime.


(** The entries that enter the dictionary: files with a photo or a video
    extension. *)
Definition registered (dir : directory) (p : Path) : Prop :=
  p ∈ entries dir /\ is_file dir p = true /\
  (get_extension_from_path p ∈ _PHOTO_EXTENSIONS
   \/ get_extension_from_path p ∈ _VIDEO_EXTENSIONS).

(** The time recorded for a registered entry whose reader does not abort
    the run. *)
Definition recorded_time (dir : directory) (p : Path) : option string :=
  if bool_decide (get_extension_from_path p ∈ _PHOTO_EXTENSIONS) then
    match exif_36867 dir p with
    | Ok photo_time => Some (normalize_photo_time photo_time)
    | Raise _ => None
    end
  else
    match probe_creation_time dir p with
    | Ok creation_time => Some (normalize_video_time creation_time)
    | Raise _ => None
    end.

(** The reader of the entry raises what [parse_photo_times] does not
    catch. *)
Definition aborts (dir : directory) (p : Path) (e : exn) : Prop :=
  is_file dir p = true /\
  ((get_extension_from_path p ∈ _PHOTO_EXTENSIONS /\
    exif_36867 dir p = Raise e /\ e <> KeyError /\ e <> TypeError)
   \/ (get_extension_from_path p ∈ _VIDEO_EXTENSIONS /\
       probe_creation_time dir p = Raise e)).

Definition no_dot (s : string) : Prop := PyStr.rfind "." s = None.

Fixpoint all_digits (s : string) : bool :=
  match s with
  | EmptyString => true
  | String c s' => PyStr.is_digit c && all_digits s'
  end.

(** Whether [sep] occurs in [s]. *)
Fixpoint contains (sep s : string) : bool :=
  String.prefix sep s ||
  match s with
  | EmptyString => false
  | String _ s' => contains sep s'
  end.

(** More small inputs. *)
Definition timeless_world : world :=
  world_of {["holiday.png" := None]} (fun _ => 0).

Definition plain_directory : directory :=
  mkDirectory ["IMG_1.jpg"; "IMG_2.jpg"; "notes.txt"]
    (fun _ => true)
    (fun p => if String.eqb p "IMG_1.jpg" then Ok "2021:01:01 10:00:00"
              else Raise KeyError)
    (fun _ => Raise (OtherError "ffmpeg.Error")).

(** * Properties *)


(** ** The calendar *)

Ltac zlia := Z.to_euclidean_division_equations; lia.

Lemma forallb_range (P : Z -> bool) (k : nat) :
  forallb P (map Z.of_nat (seq 0 k)) = true ->
  forall n, 0 <= n < Z.of_nat k -> P n = true.
Proof.
  intros H n Hn. rewrite forallb_forall in H. apply H.
  apply in_map_iff. exists (Z.to_nat n). split; [lia|].
  apply in_seq. lia.
Qed.

Lemma month_day_ok (leapyear : bool) n :
  0 <= n < 365 + (if leapyear then 1 else 0) ->
  month_day_check leapyear n = true.
Proof.
  intros Hn. destruct leapyear.
  - apply (forallb_range (month_day_check true) 366); [vm_compute; reflexivity | lia].
  - apply (forallb_range (month_day_check false) 365); [vm_compute; reflexivity | lia].
Qed.

Lemma is_leap_spec y :
  _is_leap y = true <-> (y mod 4 = 0 /\ (y mod 100 <> 0 \/ y mod 400 = 0)).
Proof.
  unfold _is_leap. rewrite andb_true_iff, orb_true_iff, negb_true_iff.
  rewrite !Z.eqb_eq, Z.eqb_neq. tauto.
Qed.

Lemma ord2ymd_unfold n :
  _ord2ymd n =
  let n0 := n - 1 in
  let n400 := n0 / 146097 in
  let r1 := n0 mod 146097 in
  let n100 := r1 / 36524 in
  let r2 := r1 mod 36524 in
  let n4 := r2 / 1461 in
  let r3 := r2 mod 1461 in
  let n1 := r3 / 365 in
  let r4 := r3 mod 365 in
  let y := n400 * 400 + 1 + n100 * 100 + n4 * 4 + n1 in
  if (n1 =? 4) || (n100 =? 4) then (y - 1, 12, 31)
  else let '(m, d) := month_day ((n1 =? 3) && (negb (n4 =? 24) || (n100 =? 3))) r4 in
       (y, m, d).
Proof.
  unfold _ord2ymd, month_day, _DI400Y, _DI100Y, _DI4Y. cbv zeta.
  destruct (_ || _); [reflexivity|].
  destruct (_ >? _); reflexivity.
Qed.

Lemma ord2ymd_ok n :
  1 <= n <= 3652059 ->
  let '(y, m, d) := _ord2ymd n in
  1 <= y <= 9999 /\ 1 <= m <= 12 /\ 1 <= d <= _days_in_month y m /\
  _ymd2ord y m d = n.
Proof.
  intros Hn. rewrite ord2ymd_unfold. cbv zeta.
  set (n0 := n - 1).
  pose proof (Z.div_mod n0 146097 ltac:(lia)) as E1.
  pose proof (Z.mod_pos_bound n0 146097 ltac:(lia)) as B1.
  set (n400 := n0 / 146097) in *. set (r1 := n0 mod 146097) in *.
  pose proof (Z.div_mod r1 36524 ltac:(lia)) as E2.
  pose proof (Z.mod_pos_bound r1 36524 ltac:(lia)) as B2.
  set (n100 := r1 / 36524) in *. set (r2 := r1 mod 36524) in *.
  pose proof (Z.div_mod r2 1461 ltac:(lia)) as E3.
  pose proof (Z.mod_pos_bound r2 1461 ltac:(lia)) as B3.
  set (n4 := r2 / 1461) in *. set (r3 := r2 mod 1461) in *.
  pose proof (Z.div_mod r3 365 ltac:(lia)) as E4.
  pose proof (Z.mod_pos_bound r3 365 ltac:(lia)) as B4.
  set (n1 := r3 / 365) in *. set (r4 := r3 mod 365) in *.
  assert (0 <= n400 <= 24) by lia.
  assert (0 <= n100 <= 4) by lia.
  assert (0 <= n4 <= 24) by lia.
  assert (0 <= n1 <= 4) by lia.
  clearbody n400 r1 n100 r2 n4 r3 n1 r4.
  set (y := n400 * 400 + 1 + n100 * 100 + n4 * 4 + n1).
  assert (Hdby : forall k, k = n400 * 400 + n100 * 100 + n4 * 4 + n1 ->
            n100 <= 3 -> n1 <= 3 ->
            _days_before_year (k + 1) = n400 * 146097 + n100 * 36524 + n4 * 1461 + n1 * 365).
  { intros k -> ? ?. unfold _days_before_year. cbv zeta.
    replace (n400 * 400 + n100 * 100 + n4 * 4 + n1 + 1 - 1) with
      (n400 * 400 + n100 * 100 + n4 * 4 + n1) by lia.
    set (k := n400 * 400 + n100 * 100 + n4 * 4 + n1).
    assert (k / 4 = n400 * 100 + n100 * 25 + n4) by (subst k; Z.to_euclidean_division_equations; lia).
    assert (k / 100 = n400 * 4 + n100) by (subst k; Z.to_euclidean_division_equations; lia).
    assert (k / 400 = n400) by (subst k; Z.to_euclidean_division_equations; lia).
    lia. }
  destruct ((n1 =? 4) || (n100 =? 4)) eqn:Hsp.
  - (* last day of a leap year *)
    apply orb_true_iff in Hsp. rewrite !Z.eqb_eq in Hsp.
    assert (Hl : _is_leap (y - 1) = true).
    { apply is_leap_spec. subst y. destruct Hsp as [-> | ->].
      - assert (n4 <= 23 \/ n100 = 3) by lia. zlia.
      - assert (n4 = 0 /\ n1 = 0) as [-> ->] by lia. zlia. }
    unfold _days_in_month, _ymd2ord, _days_before_month. rewrite Hl. simpl.
    split; [subst y; lia|]. split; [lia|]. split; [lia|].
    unfold _days_before_year. cbv zeta. subst y. destruct Hsp as [-> | ->]; zlia.
  - apply orb_false_iff in Hsp. rewrite !Z.eqb_neq in Hsp.
    set (leap := (n1 =? 3) && (negb (n4 =? 24) || (n100 =? 3))).
    assert (Hl : _is_leap y = leap).
    { subst leap. apply eq_true_iff_eq. rewrite is_leap_spec.
      rewrite andb_true_iff, orb_true_iff, negb_true_iff, !Z.eqb_eq, Z.eqb_neq.
      subst y. zlia. }
    assert (Hr4 : 0 <= r4 < 365 + (if leap then 1 else 0)).
    { destruct leap eqn:El; [|lia]. lia. }
    pose proof (month_day_ok leap r4 Hr4) as Hc.
    unfold month_day_check in Hc. destruct (month_day leap r4) as [m d].
    rewrite !andb_true_iff in Hc. destruct Hc as [[[[? ?] ?] ?] ?].
    unfold _days_in_month, _ymd2ord, _days_before_month. rewrite Hl.
    pose proof (Hdby (y - 1) ltac:(subst y; lia) ltac:(lia) ltac:(lia)) as Hy.
    replace (y - 1 + 1) with y in Hy by lia. rewrite Hy.
    split; [subst y; lia|]. lia.
Qed.

Lemma ord2ymd_year_out n :
  n < 1 \/ 3652059 < n ->
  let '(y, m, d) := _ord2ymd n in y < 1 \/ 9999 < y.
Proof.
  intros Hn. rewrite ord2ymd_unfold. cbv zeta.
  set (n0 := n - 1).
  pose proof (Z.div_mod n0 146097 ltac:(lia)) as E1.
  pose proof (Z.mod_pos_bound n0 146097 ltac:(lia)) as B1.
  set (n400 := n0 / 146097) in *. set (r1 := n0 mod 146097) in *.
  pose proof (Z.div_mod r1 36524 ltac:(lia)) as E2.
  pose proof (Z.mod_pos_bound r1 36524 ltac:(lia)) as B2.
  set (n100 := r1 / 36524) in *. set (r2 := r1 mod 36524) in *.
  pose proof (Z.div_mod r2 1461 ltac:(lia)) as E3.
  pose proof (Z.mod_pos_bound r2 1461 ltac:(lia)) as B3.
  set (n4 := r2 / 1461) in *. set (r3 := r2 mod 1461) in *.
  pose proof (Z.div_mod r3 365 ltac:(lia)) as E4.
  pose proof (Z.mod_pos_bound r3 365 ltac:(lia)) as B4.
  set (n1 := r3 / 365) in *. set (r4 := r3 mod 365) in *.
  assert (0 <= n100 <= 4) by lia.
  assert (0 <= n4 <= 24) by lia.
  assert (0 <= n1 <= 4) by lia.
  clearbody n400 r1 n100 r2 n4 r3 n1 r4.
  destruct ((n1 =? 4) || (n100 =? 4)) eqn:Hsp.
  - apply orb_true_iff in Hsp. rewrite !Z.eqb_eq in Hsp. lia.
  - apply orb_false_iff in Hsp. rewrite !Z.eqb_neq in Hsp.
    destruct (month_day _ r4) as [m d]. lia.
Qed.

Lemma valid_spec d :
  valid d = true <->
  1 <= year d <= 9999 /\ 1 <= month d <= 12 /\
  1 <= day d <= _days_in_month (year d) (month d) /\
  0 <= hour d <= 23 /\ 0 <= minute d <= 59 /\ 0 <= second d <= 59.
Proof.
  unfold valid, MINYEAR, MAXYEAR. rewrite !andb_true_iff, !Z.leb_le. tauto.
Qed.

Lemma of_seconds_Some t :
  MIN_TS <= t <= MAX_TS ->
  exists d, of_seconds t = Some d /\ valid d = true /\ seconds_since_epoch d = t.
Proof.
  unfold MIN_TS, MAX_TS. intros Ht. unfold of_seconds.
  pose proof (Z.div_mod t 86400 ltac:(lia)) as E.
  pose proof (Z.mod_pos_bound t 86400 ltac:(lia)) as B.
  set (days := t / 86400) in *. set (rem := t mod 86400) in *.
  pose proof (ord2ymd_ok (days + 719163) ltac:(lia)) as Ho.
  destruct (_ord2ymd (days + 719163)) as [[y m] dd].
  destruct Ho as (Hy & Hm & Hd & Hord).
  unfold new_datetime.
  set (dt := mkDatetime _ _ _ _ _ _).
  assert (Hv : valid dt = true).
  { apply valid_spec. subst dt. simpl. repeat split; try lia; zlia. }
  rewrite Hv. exists dt. split; [reflexivity|]. split; [exact Hv|].
  unfold seconds_since_epoch. subst dt. simpl. rewrite Hord. zlia.
Qed.

Lemma of_seconds_None t :
  t < MIN_TS \/ MAX_TS < t -> of_seconds t = None.
Proof.
  unfold MIN_TS, MAX_TS. intros Ht. unfold of_seconds.
  pose proof (Z.div_mod t 86400 ltac:(lia)) as E.
  pose proof (Z.mod_pos_bound t 86400 ltac:(lia)) as B.
  set (days := t / 86400) in *. set (rem := t mod 86400) in *.
  pose proof (ord2ymd_year_out (days + 719163) ltac:(lia)) as Ho.
  destruct (_ord2ymd (days + 719163)) as [[y m] dd].
  unfold new_datetime.
  destruct (valid _) eqn:Hv; [|reflexivity].
  apply valid_spec in Hv. simpl in Hv. lia.
Qed.

Lemma days_before_year_mono y : 1 <= y -> 
  365 * (y - 1) <= _days_before_year y <= 366 * (y - 1).
Proof. intros. unfold _days_before_year. cbv zeta. zlia. Qed.

Lemma ymd2ord_bounds y m d :
  1 <= y <= 9999 -> 1 <= m <= 12 -> 1 <= d <= _days_in_month y m ->
  1 <= _ymd2ord y m d <= 3652059.
Proof.
  intros Hy Hm Hd. unfold _ymd2ord, _days_before_month, _days_in_month in *.
  assert (Hdby : 0 <= _days_before_year y <= 3651694).
  { unfold _days_before_year. cbv zeta. zlia. }
  assert (m = 1 \/ m = 2 \/ m = 3 \/ m = 4 \/ m = 5 \/ m = 6 \/ m = 7 \/ m = 8
          \/ m = 9 \/ m = 10 \/ m = 11 \/ m = 12) as Hcases by lia.
  assert (Hlast : _is_leap y = true -> _days_before_year y <= 3651694 - 1).
  { intros Hl. apply is_leap_spec in Hl. unfold _days_before_year. cbv zeta. zlia. }
  destruct (_is_leap y); 
    repeat (destruct Hcases as [-> | Hcases]; [simpl in *; try specialize (Hlast eq_refl); lia|]);
    subst m; simpl in *; try specialize (Hlast eq_refl); lia.
Qed.

Lemma seconds_bounds d :
  valid d = true -> MIN_TS <= seconds_since_epoch d <= MAX_TS.
Proof.
  intros Hv. apply valid_spec in Hv. destruct Hv as (Hy & Hm & Hd & ? & ? & ?).
  pose proof (ymd2ord_bounds _ _ _ Hy Hm Hd).
  unfold seconds_since_epoch, MIN_TS, MAX_TS. lia.
Qed.

Lemma local_spec tz u :
  local tz u = if representable (u + tz) then Some (u + tz) else None.
Proof.
  unfold local, representable.
  destruct (MIN_TS <=? u + tz) eqn:E1; simpl.
  - destruct (u + tz <=? MAX_TS) eqn:E2.
    + destruct (of_seconds_Some (u + tz)) as (d & -> & _ & ->); [lia|reflexivity].
    + rewrite of_seconds_None; [reflexivity|lia].
  - rewrite of_seconds_None; [reflexivity|lia].
Qed.

Lemma timestamp_spec tz d :
  valid d = true ->
  timestamp tz d =
  if representable (seconds_since_epoch d + tz)
     && representable (seconds_since_epoch d - 86400)
  then Some (seconds_since_epoch d - tz) else None.
Proof.
  intros Hv. pose proof (seconds_bounds d Hv) as Hb.
  unfold timestamp, _mktime. cbv zeta.
  set (t := seconds_since_epoch d) in *. clearbody t.
  rewrite (local_spec tz t).
  destruct (representable (t + tz)) eqn:R1; cbn [andb]; [|reflexivity].
  replace (t + tz - t) with tz by lia.
  rewrite (local_spec tz (t - tz)).
  replace (t - tz + tz) with t by lia.
  assert (R2 : representable t = true).
  { unfold representable. apply andb_true_iff. rewrite !Z.leb_le. lia. }
  rewrite R2, Z.eqb_refl.
  rewrite (local_spec tz (t - tz - 24 * 3600)).
  replace (t - tz - 24 * 3600 + tz) with (t - 86400) by lia.
  destruct (representable (t - 86400)); [|reflexivity].
  replace (t - 86400 - (t - tz - 24 * 3600)) with tz by lia.
  rewrite Z.eqb_refl. reflexivity.
Qed.

(** ** [strptime] and [strftime] *)


Ltac digit_cases k :=
  let H := fresh "Hc" in
  assert (k = 0 \/ k = 1 \/ k = 2 \/ k = 3 \/ k = 4 \/ k = 5 \/ k = 6 \/ k = 7
          \/ k = 8 \/ k = 9) as H by lia;
  destruct H as [-> | [-> | [-> | [-> | [-> | [-> | [-> | [-> | [-> | ->]]]]]]]]].

Lemma is_digit_digit_char k : 0 <= k <= 9 -> PyStr.is_digit (PyStr.digit_char k) = true.
Proof. intros H. digit_cases k; reflexivity. Qed.

Lemma digit_val_digit_char k : 0 <= k <= 9 -> PyStr.digit_val (PyStr.digit_char k) = k.
Proof. intros H. digit_cases k; reflexivity. Qed.

Lemma is_digit_inv c :
  PyStr.is_digit c = true -> exists k, 0 <= k <= 9 /\ c = PyStr.digit_char k.
Proof.
  intros H. exists (PyStr.digit_val c). unfold PyStr.is_digit in H. cbv zeta in H.
  apply andb_true_iff in H. destruct H as [H1 H2].
  apply Nat.leb_le in H1, H2. unfold PyStr.digit_val, PyStr.digit_char.
  split; [lia|].
  replace (Z.to_nat (Z.of_nat (nat_of_ascii c) - 48 + 48)) with (nat_of_ascii c) by lia.
  symmetry. apply ascii_nat_embedding.
Qed.


Lemma first_alt_ext {A} (f g : list cls -> option A) alts :
  (forall alt, f alt = g alt) -> first_alt f alts = first_alt g alts.
Proof.
  intros Hfg. induction alts as [|alt alts IH]; simpl; [reflexivity|].
  rewrite Hfg, IH. reflexivity.
Qed.

Lemma rmatch_group_lit alts c re s :
  rmatch (Group alts :: Lit c :: re) s = group_then_lit alts c (rmatch re) s.
Proof.
  unfold group_then_lit. cbn [rmatch]. apply first_alt_ext. intros alt.
  destruct (take_classes alt s) as [[txt [|a s']]|]; try reflexivity.
  destruct (Ascii.eqb a c); reflexivity.
Qed.

Ltac group_tac a b :=
  unfold re_m, re_d, re_H, re_M; rewrite rmatch_group_lit;
  match goal with |- context [rmatch ?re] => generalize (rmatch re) end;
  let k := fresh "k" in intros k;
  digit_cases a; digit_cases b; cbv;
  try match goal with |- context [k ?s] => destruct (k s) as [[? ?]|] end;
  reflexivity.

Lemma rmatch_m a b re s :
  0 <= a <= 9 -> 0 <= b <= 9 ->
  rmatch (re_m :: Lit "-" :: re) (String (dc a) (String (dc b) (String "-" s)))
  = group_result (in_range 1 12 a b) (two a b) (rmatch re s).
Proof. intros Ha Hb. group_tac a b. Qed.

Lemma rmatch_d a b re s :
  0 <= a <= 9 -> 0 <= b <= 9 ->
  rmatch (re_d :: Lit "_" :: re) (String (dc a) (String (dc b) (String "_" s)))
  = group_result (in_range 1 31 a b) (two a b) (rmatch re s).
Proof. intros Ha Hb. group_tac a b. Qed.

Lemma rmatch_H a b re s :
  0 <= a <= 9 -> 0 <= b <= 9 ->
  rmatch (re_H :: Lit ":" :: re) (String (dc a) (String (dc b) (String ":" s)))
  = group_result (in_range 0 23 a b) (two a b) (rmatch re s).
Proof. intros Ha Hb. group_tac a b. Qed.

Lemma rmatch_M a b re s :
  0 <= a <= 9 -> 0 <= b <= 9 ->
  rmatch (re_M :: Lit ":" :: re) (String (dc a) (String (dc b) (String ":" s)))
  = group_result (in_range 0 59 a b) (two a b) (rmatch re s).
Proof. intros Ha Hb. group_tac a b. Qed.

(** The last group: the text ends after the two digits.  Seconds 60 and 61
    match the expression and are refused by the constructor. *)
Lemma rmatch_S a b :
  0 <= a <= 9 -> 0 <= b <= 9 ->
  rmatch [re_S] (String (dc a) (String (dc b) EmptyString))
  = if in_range 0 61 a b then Some ([two a b], EmptyString)
    else Some ([String (dc a) EmptyString], String (dc b) EmptyString).
Proof. intros Ha Hb. digit_cases a; digit_cases b; reflexivity. Qed.

Lemma rmatch_Y a b c d re s :
  0 <= a <= 9 -> 0 <= b <= 9 -> 0 <= c <= 9 -> 0 <= d <= 9 ->
  rmatch (re_Y :: Lit "-" :: re)
    (String (dc a) (String (dc b) (String (dc c) (String (dc d) (String "-" s)))))
  = group_result true (four a b c d) (rmatch re s).
Proof.
  intros Ha Hb Hc Hd. unfold re_Y, four, group_result.
  cbn -[PyStr.is_digit PyStr.digit_char]. unfold digit.
  rewrite !is_digit_digit_char by assumption.
  destruct (rmatch re s) as [[? ?]|]; reflexivity.
Qed.

Lemma int_of_two a b : 0 <= a <= 9 -> 0 <= b <= 9 -> int_of (two a b) = 10 * a + b.
Proof. intros Ha Hb. digit_cases a; digit_cases b; reflexivity. Qed.

Lemma int_of_four a b c d :
  0 <= a <= 9 -> 0 <= b <= 9 -> 0 <= c <= 9 -> 0 <= d <= 9 ->
  int_of (four a b c d) = 1000 * a + 100 * b + 10 * c + d.
Proof.
  intros Ha Hb Hc Hd. unfold int_of, four.
  assert (Hs : forall k, 0 <= k <= 9 -> PyStr.is_space (dc k) = false).
  { intros k Hk. digit_cases k; reflexivity. }
  cbn -[PyStr.is_space PyStr.digit_char PyStr.digit_val Z.mul Z.add].
  rewrite Hs by assumption.
  cbn -[PyStr.digit_char PyStr.digit_val Z.mul Z.add].
  rewrite !digit_val_digit_char by assumption. lia.
Qed.

Lemma strftime_chars y m d hh mm ss :
  strftime (mkDatetime y m d hh mm ss) =
  String (dc (y / 1000)) (String (dc (y / 100 mod 10)) (String (dc (y / 10 mod 10))
  (String (dc (y mod 10)) (String "-"
  (String (dc (m / 10)) (String (dc (m mod 10)) (String "-"
  (String (dc (d / 10)) (String (dc (d mod 10)) (String "_"
  (String (dc (hh / 10)) (String (dc (hh mod 10)) (String ":"
  (String (dc (mm / 10)) (String (dc (mm mod 10)) (String ":"
  (String (dc (ss / 10)) (String (dc (ss mod 10)) EmptyString)))))))))))))))))).
Proof. reflexivity. Qed.

Lemma days_in_month_le y m : _days_in_month y m <= 31.
Proof.
  unfold _days_in_month. destruct (_ && _); [lia|].
  unfold _DAYS_IN_MONTH.
  repeat (match goal with |- context [match ?x with _ => _ end] => destruct x end; try lia).
Qed.

Lemma in_range_pad lo hi v :
  lo <= v <= hi -> in_range lo hi (v / 10) (v mod 10) = true.
Proof.
  intros H. unfold in_range. apply andb_true_iff. rewrite !Z.leb_le. zlia.
Qed.

Lemma strptime_strftime d :
  valid d = true -> strptime (strftime d) = Some d.
Proof.
  intros Hv. pose proof Hv as Hv'. apply valid_spec in Hv'.
  destruct d as [y m dd hh mm ss]. simpl in Hv'.
  destruct Hv' as (Hy & Hm & Hd & Hh & Hmi & Hs).
  pose proof (days_in_month_le y m).
  rewrite strftime_chars. unfold strptime, _FILE_TIME_RE.
  rewrite rmatch_Y by zlia.
  rewrite rmatch_m by zlia.
  rewrite rmatch_d by zlia.
  rewrite rmatch_H by zlia.
  rewrite rmatch_M by zlia.
  rewrite rmatch_S by zlia.
  rewrite !in_range_pad by lia. cbn [group_result].
  rewrite int_of_four, !int_of_two by zlia.
  replace (1000 * (y / 1000) + 100 * (y / 100 mod 10) + 10 * (y / 10 mod 10) + y mod 10)
    with y by zlia.
  replace (10 * (m / 10) + m mod 10) with m by zlia.
  replace (10 * (dd / 10) + dd mod 10) with dd by zlia.
  replace (10 * (hh / 10) + hh mod 10) with hh by zlia.
  replace (10 * (mm / 10) + mm mod 10) with mm by zlia.
  replace (10 * (ss / 10) + ss mod 10) with ss by zlia.
  unfold new_datetime. rewrite Hv. reflexivity.
Qed.

Lemma new_datetime_Some y m d hh mm ss dt :
  new_datetime y m d hh mm ss = Some dt ->
  dt = mkDatetime y m d hh mm ss /\ valid dt = true.
Proof.
  unfold new_datetime. destruct (valid _) eqn:Hv; [|discriminate].
  intros [= <-]. auto.
Qed.

Lemma strptime_valid s d : strptime s = Some d -> valid d = true.
Proof.
  unfold strptime. intros H.
  repeat (match type of H with
          | match ?x with _ => _ end = _ => destruct x; try discriminate
          end).
  apply new_datetime_Some in H. tauto.
Qed.




Lemma of_seconds_inv t d :
  of_seconds t = Some d -> valid d = true /\ seconds_since_epoch d = t.
Proof.
  intros H. destruct (Z_lt_le_dec t MIN_TS) as [Hlo|Hlo].
  { rewrite of_seconds_None in H by lia. discriminate. }
  destruct (Z_lt_le_dec MAX_TS t) as [Hhi|Hhi].
  { rewrite of_seconds_None in H by lia. discriminate. }
  destruct (of_seconds_Some t ltac:(lia)) as (d' & E & Hv & Hs).
  rewrite E in H. injection H as <-. done.
Qed.


(** ** The tag of an interpolated time *)


Lemma split_go_other c0 sep cur c s :
  c <> c0 ->
  PyStr.split_go (String c0 sep) 0 cur (String c s)
  = PyStr.split_go (String c0 sep) 0 (cur +:+ String c EmptyString) s.
Proof.
  intros Hne. cbn [PyStr.split_go String.prefix].
  destruct (ascii_dec c0 c); [congruence|reflexivity].
Qed.


Lemma is_digit_neq c c' : PyStr.is_digit c = true -> PyStr.is_digit c' = false -> c <> c'.
Proof. intros H1 H2 ->. congruence. Qed.






(** ** The computations *)

Ltac unfold_M :=
  unfold mbind, M_bind, mret, M_ret, or_ValueError, info, attempt, lift,
    getitem, setitem, randint, fs_do, dict_items, dict_keys, new_dict,
    bind, ret, raise in *;
  cbn [photo_times random logged fs fst snd] in *.

Lemma get_random_time_between_spec tz a b w :
  get_random_time_between tz a b w =
  let w1 := with_log (Info_get_random a b) w in
  match pool tz a b with
  | None => (Raise ValueError, w1)
  | Some (lo, hi) =>
      match utcfromtimestamp (draw lo hi w) with
      | Some d => (Ok (strftime d), after_draw w1)
      | None => (Raise ValueError, after_draw w1)
      end
  end.
Proof.
  unfold get_random_time_between, pool, parse_timestamp, with_log, after_draw, draw.
  unfold_M.
  destruct (strptime a) as [da|]; unfold_M; [|reflexivity].
  destruct (timestamp tz da) as [ta|]; unfold_M;
    [|destruct (strptime b) as [db|]; [destruct (timestamp tz db)|]; reflexivity].
  destruct (strptime b) as [db|]; unfold_M; [|reflexivity].
  destruct (timestamp tz db) as [tb|]; unfold_M; [|reflexivity].
  destruct (tb - 1 <? ta + 1); [reflexivity|].
  destruct (tb - 1 - 1 <? ta + 1 + 1); unfold_M; [reflexivity|].
  destruct (utcfromtimestamp _); reflexivity.
Qed.

Lemma draw_bounds lo hi w : lo <= hi -> lo <= draw lo hi w <= hi.
Proof. intros H. unfold draw. zlia. Qed.

Lemma find_neighbor_time_spec photos w :
  (forall k, k ∈ photos -> is_Some (photo_times w !! k)) ->
  find_neighbor_time photos w = (Ok (neighbor_time (photo_times w) photos), w).
Proof.
  induction photos as [|photo rest IH]; intros Hdom; [reflexivity|].
  cbn [find_neighbor_time neighbor_time].
  assert (Hrest : forall k, k ∈ rest -> is_Some (photo_times w !! k)).
  { intros k Hk. apply Hdom. by right. }
  destruct (is_valid_for_interpolation photo); cbn [negb]; [|by apply IH].
  unfold_M. destruct (Hdom photo ltac:(by left)) as [v Hv]. rewrite Hv.
  destruct v; [reflexivity|by apply IH].
Qed.

Lemma elem_of_rev {A} (x : A) l : x ∈ rev l <-> x ∈ l.
Proof. rewrite !list_elem_of_In. symmetry. apply in_rev. Qed.

Lemma firstn_pre {A} (pre : list A) p post : firstn (length pre) (pre ++ p :: post) = pre.
Proof. induction pre; simpl; [reflexivity|]. by f_equal. Qed.

Lemma skipn_pre {A} (pre : list A) p post :
  skipn (length pre + 1) (pre ++ p :: post) = post.
Proof. induction pre; simpl; [reflexivity|]. done. Qed.

Lemma interpolate_body_spec tz l pre p post c w :
  l = pre ++ p :: post ->
  (forall k, k ∈ l -> is_Some (photo_times w !! k)) ->
  interpolate_body tz l c (length pre, p) w =
  match photo_times w !! p with
  | Some (Some _) => (Ok c, w)
  | Some None =>
      if negb (is_valid_for_interpolation p)
      then (Ok c, with_log (Info_skip_not_valid p) w)
      else
        match neighbor_time (photo_times w) (rev pre) with
        | None => (Ok (failed c), with_log (Info_no_previous p) w)
        | Some prev_time =>
            match neighbor_time (photo_times w) post with
            | None => (Ok (failed c), with_log (Info_no_next p) w)
            | Some next_time =>
                let prev_time := try_remove_interpolated_suffix prev_time in
                let w1 := with_log (Info_get_random prev_time next_time) w in
                match pool tz prev_time next_time with
                | None => (Ok (failed c), with_log (Info_no_time p) w1)
                | Some (lo, hi) =>
                    match utcfromtimestamp (draw lo hi w) with
                    | None =>
                        (Ok (failed c), with_log (Info_no_time p) (after_draw w1))
                    | Some d =>
                        (Ok (interpolated c),
                         with_log (Info_set_time (strftime d) p)
                           (with_time p (strftime d +:+ _INTERPOLATED_SUFFIX)
                              (after_draw w1)))
                    end
                end
            end
        end
  | None => (Raise KeyError, w)
  end.
Proof.
  intros -> Hdom. unfold interpolate_body.
  rewrite firstn_pre.
  rewrite skipn_pre.
  unfold_M.
  destruct (photo_times w !! p) as [[t|]|]; try reflexivity.
  destruct (is_valid_for_interpolation p); cbn [negb]; [|reflexivity].
  rewrite find_neighbor_time_spec.
  2:{ intros k Hk. apply Hdom. apply elem_of_app. left. by apply elem_of_rev. }
  destruct (neighbor_time (photo_times w) (rev pre)) as [prev_time|]; [|reflexivity].
  rewrite find_neighbor_time_spec.
  2:{ intros k Hk. apply Hdom. apply elem_of_app. right. by right. }
  destruct (neighbor_time (photo_times w) post) as [next_time|]; [|reflexivity].
  rewrite get_random_time_between_spec. cbv zeta.
  destruct (pool tz _ next_time) as [[lo hi]|]; [|reflexivity].
  unfold draw at 1. cbn [random with_log].
  fold (draw lo hi w).
  destruct (utcfromtimestamp (draw lo hi w)); reflexivity.
Qed.

(** ** The main loop *)

Lemma sorted_keys_NoDup m : NoDup (sorted_keys m).
Proof.
  unfold sorted_keys. rewrite merge_sort_Permutation.
  apply NoDup_fst_map_to_list.
Qed.

Lemma elem_of_sorted_keys m k : k ∈ sorted_keys m <-> is_Some (m !! k).
Proof.
  unfold sorted_keys. rewrite merge_sort_Permutation.
  rewrite list_elem_of_fmap. split.
  - intros [[k' v] [-> Hin]]. apply elem_of_map_to_list in Hin. by exists v.
  - intros [v Hv]. exists (k, v). split; [done|]. by apply elem_of_map_to_list.
Qed.

(** The loop over [enumerate l], one photo at a time: [pre] are the photos
    already visited and [post] the ones to come. *)
Lemma interpolate_loop tz l (I : list Path -> list Path -> world -> Prop) :
  (forall pre p post c w, l = pre ++ p :: post -> I pre (p :: post) w ->
     exists c' w', interpolate_body tz l c (length pre, p) w = (Ok c', w')
                   /\ I (pre ++ [p]) post w') ->
  forall todo pre c w, l = pre ++ todo -> I pre todo w ->
    exists c' w',
      for_each (interpolate_body tz l)
        (combine (seq (length pre) (length todo)) todo) c w = (Ok c', w')
      /\ I l [] w'.
Proof.
  intros Hstep todo. induction todo as [|p post IH]; intros pre c w Hl HI.
  - exists c, w. split; [reflexivity|]. rewrite app_nil_r in Hl. by subst.
  - destruct (Hstep pre p post c w Hl HI) as (c1 & w1 & Hb & HI1).
    destruct (IH (pre ++ [p]) c1 w1) as (c2 & w2 & Hf & HI2).
    { by rewrite <- app_assoc. }
    { done. }
    exists c2, w2. split; [|done].
    cbn [length seq combine for_each]. unfold mbind, M_bind, bind.
    rewrite Hb. rewrite length_app in Hf. cbn [length] in Hf.
    replace (length pre + 1)%nat with (S (length pre)) in Hf by lia.
    exact Hf.
Qed.

Lemma interpolate_photo_times_loop tz w (I : list Path -> list Path -> world -> Prop) :
  let l := sorted_keys (photo_times w) in
  (forall pre p post c w, l = pre ++ p :: post -> I pre (p :: post) w ->
     exists c' w', interpolate_body tz l c (length pre, p) w = (Ok c', w')
                   /\ I (pre ++ [p]) post w') ->
  I [] l w ->
  exists c w',
    interpolate_photo_times tz w =
      (Ok tt, with_log (Info_interpolate_summary (num_interpolated c) (num_failed c)) w')
    /\ I l [] w'.
Proof.
  intros l Hstep HI.
  destruct (interpolate_loop tz l I Hstep l [] (mkCounters 0 0) w eq_refl HI)
    as (c & w' & Hf & HI').
  exists c, w'. split; [|done].
  unfold interpolate_photo_times. unfold_M. unfold enumerate.
  fold (sorted_keys (photo_times w)). fold l. cbn [length] in Hf. rewrite Hf.
  reflexivity.
Qed.

(** ** What the pass changes *)

Lemma fills_refl m : fills m m.
Proof. intros k. by left. Qed.

Lemma fills_trans m1 m2 m3 : fills m1 m2 -> fills m2 m3 -> fills m1 m3.
Proof.
  intros H12 H23 k. destruct (H23 k) as [E23 | (E2 & Hv & d & Hd & E3)].
  - rewrite E23. apply H12.
  - destruct (H12 k) as [E12 | (_ & _ & d' & _ & E2')].
    + right. rewrite <- E12. eauto.
    + congruence.
Qed.

Lemma fills_insert m p d :
  m !! p = Some None -> is_valid_for_interpolation p = true -> valid d = true ->
  fills m (<[p := Some (strftime d +:+ _INTERPOLATED_SUFFIX)]> m).
Proof.
  intros Hp Hv Hd k. destruct (decide (p = k)) as [<- | Hne].
  - right. rewrite lookup_insert_eq. eauto.
  - left. by rewrite lookup_insert_ne.
Qed.

Lemma fills_is_Some m m' k : fills m m' -> is_Some (m' !! k) <-> is_Some (m !! k).
Proof.
  intros H. destruct (H k) as [-> | (-> & _ & d & _ & ->)]; [done|].
  split; eauto.
Qed.

(** The cases of the body of the loop, after [interpolate_body_spec]. *)
Ltac body_cases tz l pre p post c w Hl Hdom :=
  rewrite (interpolate_body_spec tz l pre p post c w Hl Hdom);
  let Hp := fresh "Hp" in
  let Hv := fresh "Hv" in
  let Hprev := fresh "Hprev" in
  let Hnext := fresh "Hnext" in
  let Hpool := fresh "Hpool" in
  let Hd := fresh "Hd" in
  destruct (Hdom p ltac:(rewrite Hl; apply elem_of_app; right; apply list_elem_of_here))
    as [? Hp];
  rewrite Hp;
  match goal with
  | Hp : _ !! p = Some ?v |- _ =>
      destruct v as [?|];
      [| destruct (is_valid_for_interpolation p) eqn:Hv; cbn [negb];
         [ destruct (neighbor_time (photo_times w) (rev pre)) as [?prev_time|] eqn:Hprev;
           [ destruct (neighbor_time (photo_times w) post) as [?next_time|] eqn:Hnext;
             [ cbv zeta;
               match goal with
               | |- context [pool tz ?a ?b] =>
                   destruct (pool tz a b) as [[?lo ?hi]|] eqn:Hpool;
                   [ destruct (utcfromtimestamp (draw lo hi w)) as [?d|] eqn:Hd |]
               end
             |]
           |]
         |]]
  end.

Lemma interpolate_body_frame tz l pre p post c w :
  l = pre ++ p :: post ->
  (forall k, k ∈ l -> is_Some (photo_times w !! k)) ->
  exists c' w', interpolate_body tz l c (length pre, p) w = (Ok c', w')
    /\ fills (photo_times w) (photo_times w') /\ fs w' = fs w.
Proof.
  intros Hl Hdom.
  body_cases tz l pre p post c w Hl Hdom;
    eexists _, _; (split; [reflexivity|]); cbn [photo_times fs with_log after_draw with_time];
    (split; [|reflexivity]); try apply fills_refl.
  apply fills_insert; [done|done|]. by destruct (of_seconds_inv _ _ Hd).
Qed.

Lemma interpolate_photo_times_frame tz w :
  exists w', interpolate_photo_times tz w = (Ok tt, w')
    /\ fills (photo_times w) (photo_times w') /\ fs w' = fs w.
Proof.
  set (m0 := photo_times w).
  destruct (interpolate_photo_times_loop tz w
    (fun _ _ w' => fills m0 (photo_times w') /\ fs w' = fs w)) as (c & w' & E & HI).
  - intros pre p post c w1 Hl [Hf Hfs].
    destruct (interpolate_body_frame tz _ pre p post c w1 Hl) as (c' & w2 & E & Hf2 & Hfs2).
    { intros k Hk. apply (fills_is_Some _ _ _ Hf). by apply elem_of_sorted_keys. }
    exists c', w2. split; [done|]. split; [by eapply fills_trans|congruence].
  - split; [apply fills_refl|done].
  - eexists. split; [exact E|]. exact HI.
Qed.

Lemma interpolate_fills tz r m : fills m (interpolate tz r m).
Proof.
  unfold interpolate.
  destruct (interpolate_photo_times_frame tz (world_of m r)) as (w' & -> & Hf & _).
  exact Hf.
Qed.

(** C6: a photo that fails the eligibility filter has after the
    interpolation pass exactly the time it had before it, whatever its
    neighbours; a photo without a time that is not eligible stays without. *)
Theorem ineligible_time_unchanged tz r m p :
  is_valid_for_interpolation p = false ->
  interpolate tz r m !! p = m !! p.
Proof.
  intros Hv. destruct (interpolate_fills tz r m p) as [E | (_ & Hv' & _)]; [done|].
  congruence.
Qed.

(** ** Output placement *)

Lemma for_each_inv {A S} (body : S -> A -> M S) (I : world -> Prop) :
  (forall s x w, I w -> I (body s x w).2) ->
  forall xs s w, I w -> I (for_each body xs s w).2.
Proof.
  intros Hb xs. induction xs as [|x xs IH]; intros s w HI; [done|].
  cbn [for_each]. unfold mbind, M_bind, bind.
  specialize (Hb s x w HI). destruct (body s x w) as [[s'|e] w']; [|done].
  by apply IH.
Qed.

Lemma save_body_spec wt wo p t w :
  save_body wt wo tt (p, t) w =
  match t with
  | Some time =>
      match get_year_from_time (try_remove_interpolated_suffix time) with
      | Ok y =>
          (Ok tt, with_fs (Copy p (wt ++ [str_of_int y] ++ [output_name p t]))
                    (with_fs (Mkdir (wt ++ [str_of_int y])) w))
      | Raise e => (Raise e, w)
      end
  | None => (Ok tt, with_fs (Copy p (wo ++ [output_name p t])) w)
  end.
Proof.
  unfold save_body, copy_file, try_mkdir, _SPLIT_INTO_YEARS, output_name.
  destruct t as [time|]; unfold_M; [|reflexivity].
  destruct (get_year_from_time _); [|reflexivity].
  rewrite <- app_assoc. reflexivity.
Qed.

Lemma save_body_photo_times wt wo u item w :
  photo_times (save_body wt wo u item w).2 = photo_times w.
Proof.
  destruct u, item as [p t]. rewrite save_body_spec.
  destruct t; [destruct (get_year_from_time _)|]; reflexivity.
Qed.

Lemma save_photos_with_times_photo_times out w :
  photo_times (save_photos_with_times out w).2 = photo_times w.
Proof.
  unfold save_photos_with_times, try_mkdir. unfold_M.
  match goal with |- context [for_each ?b ?xs ?u ?w0] =>
    pose proof (for_each_inv b (fun w' => photo_times w' = photo_times w)) as H;
    specialize (H (fun u' x w1 Hw1 => eq_trans (save_body_photo_times _ _ u' x w1) Hw1)
                  xs u w0 eq_refl)
  end.
  destruct (for_each _ _ _ _) as [[[]|e] w']; exact H.
Qed.

(** The file operations of a completed loop of [save_photos_with_times]. *)
Lemma save_loop_copies wt wo items w w' :
  for_each (save_body wt wo) items tt w = (Ok tt, w') ->
  (forall op, op ∈ fs w -> op ∈ fs w') /\
  forall p t, (p, t) ∈ items ->
    exists dir, Copy p (dir ++ [output_name p t]) ∈ fs w' /\
      match t with
      | Some time =>
          exists y, get_year_from_time (try_remove_interpolated_suffix time) = Ok y
                    /\ dir = wt ++ [str_of_int y]
      | None => dir = wo
      end.
Proof.
  revert w. induction items as [|[p0 t0] items IH]; intros w Hrun.
  - cbn in Hrun. injection Hrun as <-. split; [done|]. intros p t Hin. inversion Hin.
  - cbn [for_each] in Hrun. unfold mbind, M_bind, bind in Hrun.
    rewrite save_body_spec in Hrun.
    assert (Hcase : exists w1 dir,
      for_each (save_body wt wo) items tt w1 = (Ok tt, w') /\
      (forall op, op ∈ fs w -> op ∈ fs w1) /\
      Copy p0 (dir ++ [output_name p0 t0]) ∈ fs w1 /\
      match t0 with
      | Some time =>
          exists y, get_year_from_time (try_remove_interpolated_suffix time) = Ok y
                    /\ dir = wt ++ [str_of_int y]
      | None => dir = wo
      end).
    { destruct t0 as [time|].
      - destruct (get_year_from_time _) as [y|e] eqn:Hy; [|discriminate].
        eexists _, (wt ++ [str_of_int y]). split; [exact Hrun|].
        cbn [fs with_fs]. split; [intros op Hop; by do 2 right|].
        split; [rewrite <- app_assoc; left|eauto].
      - eexists _, wo. split; [exact Hrun|]. cbn [fs with_fs].
        split; [intros op Hop; by right|]. split; [left|done]. }
    destruct Hcase as (w1 & dir & Hrun1 & Hmono & Hcopy & Hdir).
    destruct (IH w1 Hrun1) as [Hmono1 Hall].
    split; [intros op Hop; auto|].
    intros p t Hin. apply elem_of_cons in Hin. destruct Hin as [[= -> ->] | Hin].
    + exists dir. split; [by apply Hmono1|done].
    + by apply Hall.
Qed.

(** C1, as the code has it: when output placement completes, the file of
    an entry with a time is copied under the directory of its year to the
    name made of the stored string, the [_interpolated_time] tag included,
    a dot and the extension; the tag is removed to compute the year only. *)
Theorem output_name_keeps_stored_time out w w' p t :
  save_photos_with_times out w = (Ok tt, w') ->
  photo_times w !! p = Some (Some t) ->
  exists y,
    get_year_from_time (try_remove_interpolated_suffix t) = Ok y /\
    Copy p (out ++ [str_of_int y; t +:+ "." +:+ get_extension_from_path p]) ∈ fs w'.
Proof.
  intros Hrun Hp. unfold save_photos_with_times, try_mkdir in Hrun. unfold_M.
  destruct (save_loop_copies _ _ _ _ _ Hrun) as [_ Hall].
  destruct (Hall p (Some t)) as (dir & Hcopy & y & Hy & ->).
  { by apply elem_of_map_to_list. }
  exists y. split; [done|]. rewrite <- app_assoc in Hcopy. exact Hcopy.
Qed.

(** ** The neighbours *)


Lemma neighbor_time_None m ks :
  neighbor_time m ks = None <->
  forall k, k ∈ ks -> is_valid_for_interpolation k = true ->
    forall t, m !! k <> Some (Some t).
Proof.
  induction ks as [|k ks IH]; cbn [neighbor_time].
  - split; [|done]. intros _ k Hk. inversion Hk.
  - split.
    + intros H k' Hk' Hv t. apply elem_of_cons in Hk'. destruct Hk' as [-> | Hk'].
      * rewrite Hv in H. destruct (m !! k) as [[?|]|]; congruence.
      * assert (neighbor_time m ks = None) as Hn.
        { destruct (is_valid_for_interpolation k); [|done].
          destruct (m !! k) as [[?|]|]; congruence. }
        by apply (proj1 IH Hn).
    + intros H. assert (neighbor_time m ks = None) as Hn.
      { apply IH. intros k' Hk'. apply H. by right. }
      destruct (is_valid_for_interpolation k) eqn:Hv; [|done].
      destruct (m !! k) as [[t|]|] eqn:Hk; [|done|done].
      exfalso. by apply (H k ltac:(left) Hv t).
Qed.

Lemma neighbor_time_app m a b :
  neighbor_time m (a ++ b) =
  match neighbor_time m a with
  | Some t => Some t
  | None => neighbor_time m b
  end.
Proof.
  induction a as [|k a IH]; [done|]. cbn [app neighbor_time].
  destruct (is_valid_for_interpolation k); [|done].
  destruct (m !! k) as [[?|]|]; done.
Qed.

Lemma neighbor_time_ext m m' ks :
  (forall k, k ∈ ks -> m' !! k = m !! k) -> neighbor_time m' ks = neighbor_time m ks.
Proof.
  induction ks as [|k ks IH]; intros H; [done|]. cbn [neighbor_time].
  rewrite (H k ltac:(left)), IH; [done|]. intros k' Hk'. apply H. by right.
Qed.

Lemma neighbor_time_rev_None m ks :
  neighbor_time m (rev ks) = None <-> neighbor_time m ks = None.
Proof.
  rewrite !neighbor_time_None. split; intros H k Hk; apply H; by apply elem_of_rev.
Qed.

Lemma neighbor_time_absent m k ks :
  m !! k = Some None -> neighbor_time m (k :: ks) = neighbor_time m ks.
Proof.
  intros Hk. cbn [neighbor_time]. rewrite Hk.
  by destruct (is_valid_for_interpolation k).
Qed.

(** ** The upper bound of the interval *)



(** ** The interval of the random draw *)

Lemma representable_spec t : representable t = true <-> MIN_TS <= t <= MAX_TS.
Proof. unfold representable. rewrite andb_true_iff, !Z.leb_le. tauto. Qed.

Lemma parse_timestamp_Some tz s t :
  parse_timestamp tz s = Some t ->
  exists d, strptime s = Some d /\ valid d = true /\
    t = seconds_since_epoch d - tz /\
    MIN_TS <= seconds_since_epoch d + tz <= MAX_TS /\
    MIN_TS + 86400 <= seconds_since_epoch d <= MAX_TS.
Proof.
  unfold parse_timestamp. destruct (strptime s) as [d|] eqn:Hs; [|discriminate].
  pose proof (strptime_valid _ _ Hs) as Hv. rewrite (timestamp_spec tz d Hv).
  destruct (representable (_ + tz)) eqn:R1; [|discriminate].
  destruct (representable (_ - 86400)) eqn:R2; [|discriminate].
  cbn [andb]. intros [= <-]. exists d.
  apply representable_spec in R1, R2. pose proof (seconds_bounds d Hv).
  repeat split; try done; lia.
Qed.

Lemma pool_Some tz a b lo hi :
  pool tz a b = Some (lo, hi) ->
  exists ta tb, parse_timestamp tz a = Some ta /\ parse_timestamp tz b = Some tb
    /\ lo = ta + 2 /\ hi = tb - 2 /\ lo <= hi.
Proof.
  unfold pool. destruct (parse_timestamp tz a) as [ta|]; [|discriminate].
  destruct (parse_timestamp tz b) as [tb|]; [|discriminate]. cbv zeta.
  destruct (tb - 1 <? ta + 1) eqn:E1; [discriminate|].
  destruct (tb - 1 - 1 <? ta + 1 + 1) eqn:E2; [discriminate|].
  intros [= <- <-]. exists ta, tb. apply Z.ltb_ge in E2. repeat split; lia.
Qed.

Lemma pool_None tz a b ta tb :
  parse_timestamp tz a = Some ta -> parse_timestamp tz b = Some tb ->
  pool tz a b = None <-> tb - 2 < ta + 2.
Proof.
  intros Ha Hb. unfold pool. rewrite Ha, Hb. cbv zeta.
  destruct (tb - 1 <? ta + 1) eqn:E1.
  - apply Z.ltb_lt in E1. split; [lia|done].
  - destruct (tb - 1 - 1 <? ta + 1 + 1) eqn:E2.
    + apply Z.ltb_lt in E2. split; [lia|done].
    + apply Z.ltb_ge in E2. split; [done|lia].
Qed.

(** East of Greenwich every timestamp of the interval has its year in
    range. *)
Lemma pool_representable tz a b lo hi :
  0 <= tz <= 86400 -> pool tz a b = Some (lo, hi) ->
  MIN_TS <= lo /\ hi <= MAX_TS.
Proof.
  intros Htz Hp. apply pool_Some in Hp. destruct Hp as (ta & tb & Ha & Hb & -> & -> & _).
  apply parse_timestamp_Some in Ha, Hb.
  destruct Ha as (da & _ & _ & -> & _ & ?). destruct Hb as (db & _ & _ & -> & ? & ?).
  unfold MIN_TS, MAX_TS in *. lia.
Qed.

Lemma utcfromtimestamp_draw tz a b lo hi w :
  0 <= tz <= 86400 -> pool tz a b = Some (lo, hi) ->
  exists d, utcfromtimestamp (draw lo hi w) = Some d /\ valid d = true
            /\ seconds_since_epoch d = draw lo hi w.
Proof.
  intros Htz Hp. pose proof (pool_representable _ _ _ _ _ Htz Hp) as [? ?].
  apply pool_Some in Hp. destruct Hp as (_ & _ & _ & _ & _ & _ & Hle).
  pose proof (draw_bounds lo hi w Hle). apply of_seconds_Some. lia.
Qed.

(** ** A second pass *)

Lemma app_cons_snoc {A} (pre1 : list A) k pre2 pre p :
  pre ++ [p] = pre1 ++ k :: pre2 ->
  (pre = pre1 /\ k = p /\ pre2 = []) \/
  exists pre2', pre2 = pre2' ++ [p] /\ pre = pre1 ++ k :: pre2'.
Proof.
  intros H. induction pre2 as [|p' pre2' _] using rev_ind.
  - left. apply app_inj_tail in H. destruct H as [-> ->]. auto.
  - right. exists pre2'.
    change (pre1 ++ k :: pre2' ++ [p']) with (pre1 ++ (k :: pre2') ++ [p']) in H.
    rewrite app_assoc in H. apply app_inj_tail in H. destruct H as [-> ->]. done.
Qed.

Lemma settled_same tz m pre p post :
  (m !! p = Some None -> is_valid_for_interpolation p = true -> blocked tz m pre post) ->
  settled tz m pre (p :: post) -> settled tz m (pre ++ [p]) post.
Proof.
  intros Hp Hs pre1 k pre2 Hsplit Hk Hv.
  destruct (app_cons_snoc _ _ _ _ _ Hsplit) as [(-> & -> & ->) | (pre2' & -> & ->)].
  - by apply Hp.
  - rewrite <- app_assoc. by apply (Hs pre1 k pre2').
Qed.

Lemma settled_insert tz m pre p post v prev_time next_time lo hi :
  NoDup (pre ++ p :: post) ->
  m !! p = Some None -> is_valid_for_interpolation p = true ->
  neighbor_time m (rev pre) = Some prev_time ->
  neighbor_time m post = Some next_time ->
  pool tz (try_remove_interpolated_suffix prev_time) next_time = Some (lo, hi) ->
  settled tz m pre (p :: post) ->
  settled tz (<[p := Some v]> m) (pre ++ [p]) post.
Proof.
  intros Hnd Hp Hv Hprev Hnext Hpool Hs pre1 k pre2 Hsplit Hk Hvk.
  destruct (app_cons_snoc _ _ _ _ _ Hsplit) as [(-> & -> & ->) | (pre2' & -> & ->)].
  { rewrite lookup_insert_eq in Hk. discriminate. }
  assert (Hne : p <> k).
  { intros ->. rewrite lookup_insert_eq in Hk. discriminate. }
  rewrite lookup_insert_ne in Hk by done.
  apply NoDup_app in Hnd. destruct Hnd as (Hnd1 & Hnd2 & _).
  assert (Hp1 : p ∉ pre1).
  { intros Hin. apply (Hnd2 p); [apply elem_of_app; by left | left]. }
  assert (Hp2 : p ∉ pre2').
  { intros Hin. apply (Hnd2 p); [apply elem_of_app; right; by right | left]. }
  assert (E1 : neighbor_time (<[p:=Some v]> m) (rev pre1) = neighbor_time m (rev pre1)).
  { apply neighbor_time_ext. intros k' Hk'. apply (proj1 (elem_of_rev _ _)) in Hk'.
    apply lookup_insert_ne. intros Heq. apply Hp1. by rewrite Heq. }
  assert (E2 : neighbor_time (<[p:=Some v]> m) pre2' = neighbor_time m pre2').
  { apply neighbor_time_ext. intros k' Hk'. apply lookup_insert_ne.
    intros Heq. apply Hp2. by rewrite Heq. }
  specialize (Hs pre1 k pre2' eq_refl Hk Hvk).
  unfold blocked in *. rewrite E1. rewrite <- app_assoc.
  rewrite neighbor_time_app, E2. rewrite neighbor_time_app in Hs.
  destruct (neighbor_time m pre2') as [x|] eqn:Hpre2; [exact Hs|].
  exfalso.
  rewrite (neighbor_time_absent m p post Hp), Hnext in Hs.
  assert (Hprev1 : neighbor_time m (rev pre1) = Some prev_time).
  { rewrite rev_app_distr in Hprev. cbn [rev] in Hprev.
    rewrite <- app_assoc, neighbor_time_app in Hprev.
    rewrite (proj2 (neighbor_time_rev_None m pre2') Hpre2) in Hprev.
    cbn [app] in Hprev. by rewrite (neighbor_time_absent m k _ Hk) in Hprev. }
  rewrite Hprev1 in Hs.
  destruct Hs as [? | [? | (pt & nt & [= <-] & [= <-] & Hnone)]]; congruence.
Qed.

(** One pass, east of Greenwich, leaves a settled dictionary. *)
Lemma interpolate_settles tz w :
  0 <= tz <= 86400 ->
  exists w', interpolate_photo_times tz w = (Ok tt, w')
    /\ fills (photo_times w) (photo_times w')
    /\ settled tz (photo_times w') (sorted_keys (photo_times w)) [].
Proof.
  intros Htz. set (m0 := photo_times w).
  pose proof (sorted_keys_NoDup m0) as Hnd.
  destruct (interpolate_photo_times_loop tz w (fun pre post w' =>
    fills m0 (photo_times w') /\ settled tz (photo_times w') pre post))
    as (c & w' & E & Hf & Hs).
  - fold m0. intros pre p post c w1 Hl (Hf & Hs).
    assert (Hdom : forall k, k ∈ sorted_keys m0 -> is_Some (photo_times w1 !! k)).
    { intros k Hk. apply (fills_is_Some _ _ _ Hf). by apply elem_of_sorted_keys. }
    rewrite Hl in Hnd.
    body_cases tz (sorted_keys m0) pre p post c w1 Hl Hdom;
      eexists _, _; (split; [reflexivity|]);
      cbn [photo_times with_log after_draw with_time].
    + split; [done|]. apply settled_same; [congruence|done].
    + split; [eapply fills_trans; [done|apply fills_insert; [done|done|]];
              by destruct (of_seconds_inv _ _ Hd)|].
      by eapply settled_insert.
    + destruct (utcfromtimestamp_draw tz _ _ lo hi w1 Htz Hpool) as (d & Hd' & _).
      congruence.
    + split; [done|]. apply settled_same; [|done]. intros _ _. right. right. eauto.
    + split; [done|]. apply settled_same; [|done]. intros _ _. right. by left.
    + split; [done|]. apply settled_same; [|done]. intros _ _. by left.
    + split; [done|]. apply settled_same; [congruence|done].
  - split; [apply fills_refl|]. intros pre1 k pre2 Hsplit. by destruct pre1.
  - eexists. split; [exact E|]. split; done.
Qed.

Lemma sorted_keys_fills m m' : fills m m' -> sorted_keys m' = sorted_keys m.
Proof.
  intros Hf. unfold sorted_keys. f_equal.
  assert (E : (fun _ => tt) <$> m' = (fun _ : option string => tt) <$> m).
  { apply map_eq. intros k. rewrite !lookup_fmap.
    pose proof (fills_is_Some _ _ k Hf) as Hk.
    destruct (m' !! k), (m !! k); try done.
    - destruct (proj1 Hk ltac:(eauto)). done.
    - destruct (proj2 Hk ltac:(eauto)). done. }
  apply (f_equal map_to_list) in E. rewrite !map_to_list_fmap in E.
  apply (f_equal (fmap fst)) in E. rewrite <- !list_fmap_compose in E.
  exact E.
Qed.

(** A pass over a settled dictionary changes no time. *)
Lemma interpolate_settled tz w :
  settled tz (photo_times w) (sorted_keys (photo_times w)) [] ->
  exists w', interpolate_photo_times tz w = (Ok tt, w')
    /\ photo_times w' = photo_times w.
Proof.
  intros Hs. set (m0 := photo_times w) in *.
  destruct (interpolate_photo_times_loop tz w (fun pre post w' =>
    photo_times w' = m0)) as (c & w' & E & Hm).
  - fold m0. intros pre p post c w1 Hl Hm.
    assert (Hdom : forall k, k ∈ sorted_keys m0 -> is_Some (photo_times w1 !! k)).
    { intros k Hk. rewrite Hm. by apply elem_of_sorted_keys. }
    body_cases tz (sorted_keys m0) pre p post c w1 Hl Hdom;
      eexists _, _; (split; [reflexivity|]);
      cbn [photo_times with_log after_draw with_time]; try done.
    exfalso. rewrite Hm in *.
    specialize (Hs pre p post Hl Hp Hv). rewrite app_nil_r in Hs.
    destruct Hs as [? | [? | (pt & nt & ? & ? & ?)]]; congruence.
  - done.
  - eexists. split; [exact E|]. done.
Qed.

(** X1: in a zone at or east of Greenwich a second interpolation pass
    changes nothing, whatever the two random generators give. *)
Theorem interpolate_idempotent_east tz r1 r2 m :
  0 <= tz <= 86400 ->
  interpolate tz r2 (interpolate tz r1 m) = interpolate tz r1 m.
Proof.
  intros Htz.
  destruct (interpolate_settles tz (world_of m r1) Htz) as (w1 & E1 & Hf & Hs).
  assert (Em : interpolate tz r1 m = photo_times w1).
  { unfold interpolate. by rewrite E1. }
  rewrite Em. change (photo_times (world_of m r1)) with m in Hf, Hs.
  rewrite <- (sorted_keys_fills _ _ Hf) in Hs.
  destruct (interpolate_settled tz (world_of (photo_times w1) r2) Hs) as (w2 & E2 & Hm).
  unfold interpolate. rewrite E2. exact Hm.
Qed.

(** ** The interval of an interpolated time *)


(** C3, as the code has it: for a photo without a time whose two
    neighbours are found and read, and whose interval lies within the
    representable timestamps, the photo stays without a time and is counted
    as failed exactly when [nextTs - 2 < prevTs + 2]; otherwise a tagged time
    is stored and the photo is counted as interpolated. *)
Theorem interpolation_fails_iff_no_room tz w pre p post c
    prev_time next_time prevTs nextTs :
  sorted_keys (photo_times w) = pre ++ p :: post ->
  photo_times w !! p = Some None ->
  is_valid_for_interpolation p = true ->
  neighbor_time (photo_times w) (rev pre) = Some prev_time ->
  neighbor_time (photo_times w) post = Some next_time ->
  parse_timestamp tz (try_remove_interpolated_suffix prev_time) = Some prevTs ->
  parse_timestamp tz next_time = Some nextTs ->
  MIN_TS <= prevTs + 2 -> nextTs - 2 <= MAX_TS ->
  let outcome := interpolate_body tz (sorted_keys (photo_times w)) c (length pre, p) w in
  (nextTs - 2 < prevTs + 2 ->
     outcome.1 = Ok (failed c) /\ photo_times outcome.2 = photo_times w) /\
  (prevTs + 2 <= nextTs - 2 ->
     outcome.1 = Ok (interpolated c) /\
     exists t, photo_times outcome.2
               = <[p := Some (t +:+ _INTERPOLATED_SUFFIX)]> (photo_times w)).
Proof.
  intros Hl Hp0 Hv0 Hprev0 Hnext0 Ha Hb Hlo Hhi outcome. subst outcome.
  assert (Hdom : forall k, k ∈ sorted_keys (photo_times w) -> is_Some (photo_times w !! k)).
  { intros k. apply elem_of_sorted_keys. }
  pose proof (pool_None tz _ _ _ _ Ha Hb) as Hnone.
  body_cases tz (sorted_keys (photo_times w)) pre p post c w Hl Hdom;
    try congruence; injection Hprev0 as ->; injection Hnext0 as ->;
    cbn [fst snd photo_times with_log after_draw with_time].
  - split; [intros Hroom; apply Hnone in Hroom; congruence|].
    intros _. split; [done|]. eauto.
  - exfalso. destruct (pool_Some _ _ _ _ _ Hpool) as (ta & tb & Ha' & Hb' & -> & -> & Hle).
    rewrite Ha in Ha'. rewrite Hb in Hb'. injection Ha' as <-. injection Hb' as <-.
    pose proof (draw_bounds (prevTs + 2) (nextTs - 2) w Hle).
    destruct (of_seconds_Some (draw (prevTs + 2) (nextTs - 2) w) ltac:(lia)) as (d & E & _).
    unfold utcfromtimestamp in Hd. congruence.
  - split; [done|]. intros Hroom. exfalso.
    assert (pool tz (try_remove_interpolated_suffix prev_time) next_time <> None) as Hx.
    { rewrite Hnone. lia. }
    done.
Qed.

(** C3 as stated fails: with neighbours two seconds apart,
    [nextTs - 1 < prevTs + 1] does not hold and yet no time is stored. *)
Lemma no_room_threshold_counterexample :
  let m := scene "2021-01-01_10:00:00" "2021-01-01_10:00:02" in
  exists prevTs nextTs,
    parse_timestamp 0 "2021-01-01_10:00:00" = Some prevTs /\
    parse_timestamp 0 "2021-01-01_10:00:02" = Some nextTs /\
    ~ (nextTs - 1 < prevTs + 1) /\
    interpolate 0 (fun _ => 0) m !! "IMG_0002.jpg" = Some None.
Proof.
  exists 1609495200, 1609495202. repeat split; try (vm_compute; reflexivity). lia.
Qed.

(** ** The claims on output placement, the filter and the registry *)

(** C1 as stated fails: the name of the copy of an interpolated entry
    keeps the tag. *)
Lemma output_name_counterexample :
  ~ (forall out w p t dst,
       photo_times w !! p = Some (Some t) ->
       Copy p dst ∈ fs (save_photos_with_times out w).2 ->
       last dst = Some (try_remove_interpolated_suffix t +:+ "."
                        +:+ get_extension_from_path p)).
Proof.
  intros H.
  specialize (H ["out"]
    (world_of {["IMG_0002.jpg" := Some "2021-01-01_10:00:05_interpolated_time"]}
              (fun _ => 0))
    "IMG_0002.jpg" "2021-01-01_10:00:05_interpolated_time"
    ["out"; "2021"; "2021-01-01_10:00:05_interpolated_time.jpg"]).
  assert (Hlast : last ["out"; "2021"; "2021-01-01_10:00:05_interpolated_time.jpg"]
                  = Some "2021-01-01_10:00:05.jpg").
  { apply H; [vm_compute; reflexivity|].
    match goal with
    | |- _ ∈ ?l => let l' := eval vm_compute in l in change l with l'
    end.
    apply list_elem_of_here. }
  vm_compute in Hlast. discriminate.
Qed.

(** C4: the filter accepts [xIMG_1.jpg], whose stem does not begin with
    the prefix [IMG_]: [split] looks for the prefix anywhere in the stem. *)
Theorem eligible_without_prefix :
  is_valid_for_interpolation "xIMG_1.jpg" = true /\
  String.prefix _COMMON_INTERPOLATION_PREFIX (path_stem "xIMG_1.jpg") = false.
Proof. split; reflexivity. Qed.

(** C7: in a zone one hour west of Greenwich, between two photos of the
    last hour of year 9999, the first pass draws a timestamp past the last
    representable one and leaves the photo without a time; a second pass
    draws a smaller one and fills it: the two passes differ. *)
Theorem second_pass_differs_west :
  let m := scene "9999-12-31_22:59:50" "9999-12-31_23:00:10" in
  let first := interpolate (-3600) (fun _ => 16) m in
  first !! "IMG_0002.jpg" = Some None /\
  interpolate (-3600) (fun _ => 0) first !! "IMG_0002.jpg"
    = Some (Some "9999-12-31_23:59:52_interpolated_time") /\
  interpolate (-3600) (fun _ => 0) first <> first.
Proof.
  cbv zeta. split; [vm_compute; reflexivity|]. split; [vm_compute; reflexivity|].
  intros E. apply (f_equal (fun m => m !! "IMG_0002.jpg")) in E.
  vm_compute in E. discriminate.
Qed.

(** C8: the interpolation pass keeps the keys of the dictionary and every
    entry that had a time, and output placement leaves the dictionary as it
    found it. *)
Theorem registry_frame tz r m :
  dom (interpolate tz r m) = dom m /\
  (forall k t, m !! k = Some (Some t) -> interpolate tz r m !! k = Some (Some t)) /\
  (forall out w, photo_times (save_photos_with_times out w).2 = photo_times w).
Proof.
  pose proof (interpolate_fills tz r m) as Hf. split; [|split].
  - apply set_eq. intros k. rewrite !elem_of_dom. by apply fills_is_Some.
  - intros k t Hk. destruct (Hf k) as [-> | (Hk' & _)]; [done|congruence].
  - apply save_photos_with_times_photo_times.
Qed.


(** ** Reading the metadata *)





Lemma parse_body_spec dir c p w :
  parse_body dir c p w =
  if negb (is_file dir p) then (Ok c, with_log (Warn_skip_not_file p) w)
  else
    let photo_ext := get_extension_from_path p in
    if bool_decide (photo_ext ∈ _PHOTO_EXTENSIONS) then
      match exif_36867 dir p with
      | Ok photo_time =>
          (Ok (found_one c),
           with_entry p (Some (normalize_photo_time photo_time))
             (with_log (Info_parse_missing p) w))
      | Raise KeyError | Raise TypeError =>
          (Ok (missing_one c),
           with_entry p None (with_log (Info_parse_found None p) w))
      | Raise e => (Raise e, w)
      end
    else if bool_decide (photo_ext ∈ _VIDEO_EXTENSIONS) then
      match probe_creation_time dir p with
      | Ok creation_time =>
          (Ok c, with_entry p (Some (normalize_video_time creation_time)) w)
      | Raise e => (Raise e, w)
      end
    else (Ok c, with_log (Info_parse_extension photo_ext) w).
Proof.
  unfold parse_body, get_photo_creation_time, get_video_creation_time.
  destruct (is_file dir p); cbn [negb]; [|reflexivity]. cbv zeta.
  destruct (bool_decide (_ ∈ _PHOTO_EXTENSIONS)).
  - unfold_M. destruct (exif_36867 dir p) as [t|[]]; reflexivity.
  - destruct (bool_decide (_ ∈ _VIDEO_EXTENSIONS)); [|reflexivity].
    unfold_M. destruct (probe_creation_time dir p) as [t|e]; reflexivity.
Qed.

Lemma video_not_photo ext : ext ∈ _VIDEO_EXTENSIONS -> ext ∉ _PHOTO_EXTENSIONS.
Proof.
  unfold _VIDEO_EXTENSIONS, _PHOTO_EXTENSIONS. intros Hv Hp.
  repeat (apply elem_of_cons in Hv; destruct Hv as [-> | Hv]);
    try (by inversion Hv);
    repeat (apply elem_of_cons in Hp; destruct Hp as [Hp | Hp]; [discriminate|]);
    inversion Hp.
Qed.

Lemma for_each_raise {A S} (body : S -> A -> M S) x xs s w e w' :
  body s x w = (Raise e, w') -> for_each body (x :: xs) s w = (Raise e, w').
Proof. intros H. cbn [for_each]. unfold mbind, M_bind, bind. by rewrite H. Qed.

Lemma for_each_app {A S} (body : S -> A -> M S) xs ys s w s' w' :
  for_each body xs s w = (Ok s', w') ->
  for_each body (xs ++ ys) s w = for_each body ys s' w'.
Proof.
  revert s w. induction xs as [|x xs IH]; intros s w H.
  - cbn in H. by injection H as <- <-.
  - cbn [app for_each] in *. unfold mbind, M_bind, bind in *.
    destruct (body s x w) as [[s1|e] w1]; [by apply IH|discriminate].
Qed.

(** C5: for a photo, a [KeyError] or a [TypeError] of the metadata reader
    is recovered: the body of the loop returns, the photo is recorded without
    a time and counted as missing.  For a video, any exception of the reader
    leaves the body and, once the entries before it are read, the whole
    run. *)
Theorem metadata_failures dir c p w :
  is_file dir p = true ->
  (get_extension_from_path p ∈ _PHOTO_EXTENSIONS ->
   exif_36867 dir p = Raise KeyError \/ exif_36867 dir p = Raise TypeError ->
   exists w', parse_body dir c p w = (Ok (missing_one c), w')
              /\ photo_times w' = <[p := None]> (photo_times w))
  /\
  (get_extension_from_path p ∈ _VIDEO_EXTENSIONS ->
   forall e, probe_creation_time dir p = Raise e ->
     parse_body dir c p w = (Raise e, w) /\
     forall tz before after out w0 c0,
       entries dir = before ++ p :: after ->
       for_each (parse_body dir) before (mkParseCounters 0 0)
         (mkWorld ∅ (random w0) (logged w0) (fs w0)) = (Ok c0, w) ->
       main tz dir true false out w0 = (Raise e, w)).
Proof.
  intros Hfile. split.
  - intros Hext Hexif. rewrite parse_body_spec, Hfile. cbn [negb]. cbv zeta.
    rewrite bool_decide_eq_true_2 by done.
    destruct Hexif as [-> | ->]; eexists; (split; [reflexivity|]); reflexivity.
  - intros Hext e Hprobe.
    assert (Hbody : forall c1 w1, parse_body dir c1 p w1 = (Raise e, w1)).
    { intros c1 w1. rewrite parse_body_spec, Hfile. cbn [negb]. cbv zeta.
      rewrite bool_decide_eq_false_2 by (by apply video_not_photo).
      rewrite bool_decide_eq_true_2 by done. by rewrite Hprobe. }
    split; [apply Hbody|].
    intros tz before after out w0 c0 Hentries Hbefore.
    unfold main. cbn [negb]. unfold parse_photo_times. unfold_M.
    rewrite Hentries, (for_each_app _ _ _ _ _ _ _ Hbefore).
    rewrite (for_each_raise _ _ _ _ _ _ _ (Hbody c0 w)). reflexivity.
Qed.

(** * Further properties *)

(** ** More on the synthesis of a time *)

(** X2: read back the way the neighbours are read, in the local zone, the
    time that [get_random_time_between] returns is [utcoffset] seconds
    before the timestamp that was drawn: it lies between the bounds moved
    by the offset of the zone, and between the bounds themselves in UTC
    only. *)
Theorem synthesized_time_read_locally tz min_time max_time w s w' t :
  get_random_time_between tz min_time max_time w = (Ok s, w') ->
  parse_timestamp tz s = Some t ->
  exists prevTs nextTs,
    parse_timestamp tz min_time = Some prevTs /\
    parse_timestamp tz max_time = Some nextTs /\
    prevTs + 2 <= t + tz <= nextTs - 2.
Proof.
  rewrite get_random_time_between_spec. cbv zeta.
  destruct (pool tz min_time max_time) as [[lo hi]|] eqn:Hpool; [|discriminate].
  destruct (utcfromtimestamp (draw lo hi w)) as [d|] eqn:Hd; [|discriminate].
  intros [= <- <-] Ht.
  destruct (of_seconds_inv _ _ Hd) as [Hv Hs].
  destruct (pool_Some _ _ _ _ _ Hpool) as (ta & tb & Ha & Hb & -> & -> & Hle).
  exists ta, tb. split; [done|]. split; [done|].
  apply parse_timestamp_Some in Ht. destruct Ht as (d' & Hd' & _ & -> & _).
  rewrite strptime_strftime in Hd' by done. injection Hd' as <-.
  pose proof (draw_bounds (ta + 2) (tb - 2) w Hle). lia.
Qed.


(** ** More on the pass *)

(** X4: the interpolation pass always completes: it raises no exception,
    does no file operation, and every entry of the dictionary is as before,
    or was without a time and now holds the formatted string of a valid
    time followed by the tag. *)
Theorem interpolate_photo_times_completes tz w :
  exists w',
    interpolate_photo_times tz w = (Ok tt, w') /\ fs w' = fs w /\
    forall k,
      photo_times w' !! k = photo_times w !! k \/
      (photo_times w !! k = Some None /\
       exists d, valid d = true /\
         photo_times w' !! k = Some (Some (strftime d +:+ _INTERPOLATED_SUFFIX))).
Proof.
  destruct (interpolate_photo_times_frame tz w) as (w' & E & Hf & Hfs).
  exists w'. split; [done|]. split; [done|]. intros k.
  destruct (Hf k) as [? | (? & _ & ?)]; [by left|by right].
Qed.

(** ** More on output placement *)









(** X6: a photo without a time is copied, under its own stem and
    extension, into the directory [without-time]. *)
Theorem timeless_photo_goes_without_time out w w' p :
  save_photos_with_times out w = (Ok tt, w') ->
  photo_times w !! p = Some None ->
  Copy p (out ++ ["without-time"; path_stem p +:+ "." +:+ get_extension_from_path p])
    ∈ fs w'.
Proof.
  intros Hrun Hp. unfold save_photos_with_times, try_mkdir in Hrun. unfold_M.
  destruct (save_loop_copies _ _ _ _ _ Hrun) as [_ Hall].
  destruct (Hall p None) as (dir & Hcopy & ->).
  { by apply elem_of_map_to_list. }
  rewrite <- app_assoc in Hcopy. exact Hcopy.
Qed.


(** ** The dictionary that [parse_photo_times] builds *)




Lemma parse_body_Ok dir c p w c' w' :
  parse_body dir c p w = (Ok c', w') ->
  (forall e, ~ aborts dir p e) /\
  ((is_file dir p = true /\
    (get_extension_from_path p ∈ _PHOTO_EXTENSIONS
     \/ get_extension_from_path p ∈ _VIDEO_EXTENSIONS) /\
    photo_times w' = <[p := recorded_time dir p]> (photo_times w))
   \/ (~ (is_file dir p = true /\
          (get_extension_from_path p ∈ _PHOTO_EXTENSIONS
           \/ get_extension_from_path p ∈ _VIDEO_EXTENSIONS)) /\
       photo_times w' = photo_times w)).
Proof.
  rewrite parse_body_spec. unfold aborts, recorded_time.
  destruct (is_file dir p); cbn [negb].
  2:{ intros [= <- <-]. split; [intros e [? _]; done|]. right. split; [|done].
      intros [? _]. done. }
  cbv zeta. case_bool_decide as Hph.
  - destruct (exif_36867 dir p) as [t|e] eqn:He.
    + intros [= <- <-]. split.
      * intros e [_ [(_ & ? & _) | (Hv & _)]]; [done|]. by apply video_not_photo in Hv.
      * left. repeat split; auto.
    + destruct e; intros [= <- <-]; (split;
        [ intros e [_ [(_ & [= <-] & ? & ?) | (Hv & _)]];
            [done | by apply video_not_photo in Hv]
        | left; repeat split; auto ]).
  - case_bool_decide as Hvi.
    + destruct (probe_creation_time dir p) as [t|e] eqn:He; [|discriminate].
      intros [= <- <-]. split.
      * intros e [_ [(? & _) | (_ & ?)]]; done.
      * left. repeat split; auto.
    + intros [= <- <-]. split.
      * intros e [_ [(? & _) | (? & _)]]; done.
      * right. split; [|done]. intros [_ [?|?]]; done.
Qed.

Lemma parse_body_Raise dir c p w e w' :
  parse_body dir c p w = (Raise e, w') -> aborts dir p e /\ w' = w.
Proof.
  rewrite parse_body_spec. unfold aborts.
  destruct (is_file dir p); cbn [negb]; [|discriminate].
  cbv zeta. case_bool_decide as Hph.
  - destruct (exif_36867 dir p) as [t|e'] eqn:He; [discriminate|].
    destruct e'; intros [= <- <-]; (split; [|done]); (split; [done|]);
      left; repeat split; done.
  - case_bool_decide as Hvi; [|discriminate].
    destruct (probe_creation_time dir p) as [t|e'] eqn:He; [discriminate|].
    intros [= <- <-]. split; [|done]. split; [done|]. right. done.
Qed.

Lemma parse_loop_Ok dir xs c w c' w' :
  for_each (parse_body dir) xs c w = (Ok c', w') ->
  (forall p e, p ∈ xs -> ~ aborts dir p e) /\
  forall p,
    photo_times w' !! p =
    if decide (p ∈ xs /\ is_file dir p = true /\
               (get_extension_from_path p ∈ _PHOTO_EXTENSIONS
                \/ get_extension_from_path p ∈ _VIDEO_EXTENSIONS))
    then Some (recorded_time dir p) else photo_times w !! p.
Proof.
  revert c w. induction xs as [|x xs IH]; intros c w Hrun.
  - cbn in Hrun. injection Hrun as <- <-. split; [intros p e Hp; inversion Hp|].
    intros p. case_decide as H; [|done]. destruct H as [H _]. inversion H.
  - cbn [for_each] in Hrun. unfold mbind, M_bind, bind in Hrun.
    destruct (parse_body dir c x w) as [[c1|e] w1] eqn:Hb; [|discriminate].
    destruct (parse_body_Ok _ _ _ _ _ _ Hb) as [Hna Hx].
    destruct (IH _ _ Hrun) as [Hna' Hlook]. split.
    + intros p e Hp. apply elem_of_cons in Hp. destruct Hp as [-> | Hp]; auto.
    + intros p. rewrite Hlook. clear Hlook IH Hrun.
      destruct (decide (p ∈ xs /\ _)) as [Hin | Hnin];
        destruct (decide (p ∈ x :: xs /\ _)) as [Hin' | Hnin'].
      * done.
      * exfalso. apply Hnin'. destruct Hin as [? ?]. split; [by right|done].
      * destruct Hin' as [Hpx Hal]. apply elem_of_cons in Hpx.
        destruct Hpx as [-> | Hpx]; [|exfalso; by apply Hnin].
        destruct Hx as [(_ & _ & ->) | (Hn & _)]; [by rewrite lookup_insert_eq|].
        exfalso. by apply Hn.
      * destruct Hx as [(Hf & Hext & ->) | (_ & ->)]; [|done].
        rewrite lookup_insert_ne; [done|]. intros ->. apply Hnin'.
        split; [left|done].
Qed.

(** X8: when [parse_photo_times] completes, the dictionary holds exactly
    the entries of the directory that are files with a photo or a video
    extension, each with the canonical form of what its reader gave, or
    without a time for a photo whose reader raised [KeyError] or
    [TypeError]; what the dictionary held before is gone. *)
Theorem parse_photo_times_registry dir w w' :
  parse_photo_times dir w = (Ok tt, w') ->
  forall p,
    photo_times w' !! p =
    if decide (registered dir p) then Some (recorded_time dir p) else None.
Proof.
  unfold parse_photo_times. unfold_M.
  destruct (for_each _ _ _ _) as [[c1|e] w1] eqn:Hrun; [|discriminate].
  intros [= <-]. cbn [photo_times]. intros p.
  destruct (parse_loop_Ok _ _ _ _ _ _ Hrun) as [_ Hlook].
  rewrite Hlook. cbn [photo_times]. unfold registered.
  repeat case_decide; try done; apply lookup_empty.
Qed.

Lemma parse_loop_Raise dir xs c w e w' :
  for_each (parse_body dir) xs c w = (Raise e, w') ->
  exists p, p ∈ xs /\ aborts dir p e.
Proof.
  revert c w. induction xs as [|x xs IH]; intros c w Hrun; [discriminate|].
  cbn [for_each] in Hrun. unfold mbind, M_bind, bind in Hrun.
  destruct (parse_body dir c x w) as [[c1|e1] w1] eqn:Hb.
  - destruct (IH _ _ Hrun) as (p & Hp & Ha). exists p. split; [by right|done].
  - injection Hrun as <- <-. apply parse_body_Raise in Hb. destruct Hb as [Ha _].
    exists x. split; [left|done].
Qed.

(** X9: [parse_photo_times] completes exactly when no reader aborts: no
    photo reader raises anything but [KeyError] and [TypeError], and no
    video reader raises at all; the exception of a run that stops is the
    one of such a reader. *)
Theorem parse_photo_times_completes_iff dir w :
  ((exists w', parse_photo_times dir w = (Ok tt, w')) <->
   (forall p e, p ∈ entries dir -> ~ aborts dir p e)) /\
  (forall e w', parse_photo_times dir w = (Raise e, w') ->
     exists p, p ∈ entries dir /\ aborts dir p e).
Proof.
  unfold parse_photo_times. unfold_M.
  destruct (for_each _ _ _ _) as [[c1|e] w1] eqn:Hrun.
  - split; [|intros e w' [=]]. split; [|eauto].
    intros _. by destruct (parse_loop_Ok _ _ _ _ _ _ Hrun).
  - destruct (parse_loop_Raise _ _ _ _ _ _ Hrun) as (p & Hp & Ha). split.
    + split; [intros [w' [=]]|]. intros Hna. exfalso. by apply (Hna p e).
    + intros e' w' [= <- <-]. eauto.
Qed.

(** ** The canonical form of the raw times *)

Lemma split_go_hit c0 cur s :
  PyStr.split_go (String c0 EmptyString) 0 cur (String c0 s)
  = cur :: PyStr.split_go (String c0 EmptyString) 0 EmptyString s.
Proof.
  cbn [PyStr.split_go String.prefix String.length Nat.sub].
  destruct (ascii_dec c0 c0); [|congruence]. by destruct s.
Qed.

Ltac split_steps :=
  repeat first
    [ rewrite split_go_hit
    | rewrite split_go_other by
        (first [ by apply is_digit_neq | discriminate ]) ];
  cbn [PyStr.split_go PyStr.join]; cbv [String.append].

Ltac digits_in_context :=
  repeat match goal with
         | H : Forall _ (_ :: _) |- _ => apply Forall_cons in H; destruct H as [? H]
         end.

(** X10: the raw time of a photo, [YYYY:MM:DD HH:MM:SS], becomes the
    canonical string with the same digits. *)
Theorem normalize_photo_time_exif y1 y2 y3 y4 m1 m2 d1 d2 h1 h2 n1 n2 s1 s2 :
  Forall (fun c => PyStr.is_digit c = true)
    [y1; y2; y3; y4; m1; m2; d1; d2; h1; h2; n1; n2; s1; s2] ->
  normalize_photo_time
    (String y1 (String y2 (String y3 (String y4 (String ":"
    (String m1 (String m2 (String ":" (String d1 (String d2 (String " "
    (String h1 (String h2 (String ":" (String n1 (String n2 (String ":"
    (String s1 (String s2 EmptyString)))))))))))))))))))
  = String y1 (String y2 (String y3 (String y4 (String "-"
    (String m1 (String m2 (String "-" (String d1 (String d2 (String "_"
    (String h1 (String h2 (String ":" (String n1 (String n2 (String ":"
    (String s1 (String s2 EmptyString)))))))))))))))))).
Proof.
  intros Hd. digits_in_context.
  unfold normalize_photo_time, PyStr.replace, PyStr.split,
    _DATE_SPLIT_CHAR, _DATE_TIME_SPLIT_CHAR.
  cbn [PyStr.take PyStr.drop].
  split_steps. split_steps. reflexivity.
Qed.

(** X11: the creation time of a video, [YYYY-MM-DDTHH:MM:SS] and what
    follows the seconds, becomes the canonical string with the same
    digits. *)
Theorem normalize_video_time_iso y1 y2 y3 y4 m1 m2 d1 d2 h1 h2 n1 n2 s1 s2 rest :
  Forall (fun c => PyStr.is_digit c = true)
    [y1; y2; y3; y4; m1; m2; d1; d2; h1; h2; n1; n2; s1; s2] ->
  normalize_video_time
    (String y1 (String y2 (String y3 (String y4 (String "-"
    (String m1 (String m2 (String "-" (String d1 (String d2 (String "T"
    (String h1 (String h2 (String ":" (String n1 (String n2 (String ":"
    (String s1 (String s2 rest)))))))))))))))))))
  = String y1 (String y2 (String y3 (String y4 (String "-"
    (String m1 (String m2 (String "-" (String d1 (String d2 (String "_"
    (String h1 (String h2 (String ":" (String n1 (String n2 (String ":"
    (String s1 (String s2 EmptyString)))))))))))))))))).
Proof.
  intros Hd. digits_in_context.
  unfold normalize_video_time, PyStr.replace, PyStr.split, _DATE_TIME_SPLIT_CHAR.
  cbn [PyStr.take].
  split_steps. reflexivity.
Qed.

(** ** Stems and extensions *)

Lemma app_String c s t : String c s +:+ t = String c (s +:+ t).
Proof. reflexivity. Qed.

Lemma app_Empty t : EmptyString +:+ t = t.
Proof. reflexivity. Qed.

Lemma app_Empty_r s : s +:+ EmptyString = s.
Proof. induction s as [|c s IH]; [done|]. by rewrite app_String, IH. Qed.

Lemma app_assoc_str s t u : (s +:+ t) +:+ u = s +:+ (t +:+ u).
Proof. induction s as [|c s IH]; [done|]. by rewrite !app_String, IH. Qed.

Lemma take_drop n s : PyStr.take n s +:+ PyStr.drop n s = s.
Proof.
  revert s. induction n as [|n IH]; intros [|c s]; cbn [PyStr.take PyStr.drop]; try done.
  by rewrite app_String, IH.
Qed.

(** X12: the stem and the suffix of a name make up the name. *)
Theorem stem_suffix name : path_stem name +:+ path_suffix name = name.
Proof.
  unfold path_stem, path_suffix. destruct (PyStr.rfind "." name) as [i|].
  - destruct (_ && _); [apply take_drop|apply app_Empty_r].
  - apply app_Empty_r.
Qed.


Lemma length_app_str s t : String.length (s +:+ t) = (String.length s + String.length t)%nat.
Proof. induction s as [|c s IH]; [done|]. rewrite app_String. cbn. by rewrite IH. Qed.

Lemma rfind_last_dot a ext :
  no_dot ext -> PyStr.rfind "." (a +:+ String "." ext) = Some (String.length a).
Proof.
  unfold no_dot. intros Hext. induction a as [|c a IH].
  - rewrite app_Empty. cbn [PyStr.rfind]. by rewrite Hext.
  - rewrite app_String. cbn [PyStr.rfind String.length]. by rewrite IH.
Qed.

Lemma take_length_app a b : PyStr.take (String.length a) (a +:+ b) = a.
Proof. induction a as [|c a IH]; [by destruct b|]. rewrite app_String. cbn. by rewrite IH. Qed.

Lemma drop_length_app a b : PyStr.drop (String.length a) (a +:+ b) = b.
Proof. induction a as [|c a IH]; [by destruct b|]. rewrite app_String. cbn. by rewrite IH. Qed.

Lemma stem_suffix_dot stem ext :
  stem <> EmptyString -> ext <> EmptyString -> no_dot ext ->
  path_stem (stem +:+ String "." ext) = stem /\
  path_suffix (stem +:+ String "." ext) = String "." ext.
Proof.
  intros Hs He Hd. unfold path_stem, path_suffix.
  rewrite (rfind_last_dot stem ext Hd).
  assert (Hcond : (0 <? String.length stem)%nat
                  && (String.length stem <? String.length (stem +:+ String "." ext) - 1)%nat
                  = true).
  { rewrite length_app_str. cbn [String.length].
    destruct stem; [done|]. destruct ext; [done|]. cbn [String.length].
    apply andb_true_iff. split; [done|]. apply Nat.ltb_lt. lia. }
  rewrite Hcond, take_length_app, drop_length_app. done.
Qed.

(** X13: a name made of a non-empty stem, a dot and a non-empty extension
    without a dot has this stem and this extension. *)
Theorem stem_and_extension stem ext :
  stem <> EmptyString -> ext <> EmptyString -> no_dot ext ->
  path_stem (stem +:+ String "." ext) = stem /\
  get_extension_from_path (stem +:+ String "." ext) = ext.
Proof.
  intros Hs He Hd. unfold get_extension_from_path.
  destruct (stem_suffix_dot stem ext Hs He Hd) as [-> ->]. done.
Qed.

(** ** The eligibility filter *)


Lemma split_go_digits c0 sep cur ds :
  PyStr.is_digit c0 = false -> all_digits ds = true ->
  PyStr.split_go (String c0 sep) 0 cur ds = [cur +:+ ds].
Proof.
  intros Hc0. revert cur. induction ds as [|c ds IH]; intros cur Hds.
  - cbn. by rewrite app_Empty_r.
  - cbn [all_digits] in Hds. apply andb_true_iff in Hds. destruct Hds as [Hc Hds].
    rewrite split_go_other by (by apply is_digit_neq).
    rewrite IH by done. by rewrite app_assoc_str.
Qed.

Lemma lstrip_digits ds : all_digits ds = true -> PyStr.lstrip ds = ds.
Proof.
  destruct ds as [|c ds]; [done|]. cbn [all_digits PyStr.lstrip].
  intros H. apply andb_true_iff in H. destruct H as [Hc _].
  assert (PyStr.is_space c = false) as ->; [|done].
  destruct (is_digit_inv c Hc) as (k & Hk & ->). digit_cases k; reflexivity.
Qed.

Lemma rstrip_digits ds : all_digits ds = true -> PyStr.rstrip ds = ds.
Proof.
  induction ds as [|c ds IH]; [done|]. cbn [all_digits PyStr.rstrip].
  intros H. apply andb_true_iff in H. destruct H as [Hc Hds].
  rewrite IH by done. destruct ds; [|done].
  assert (PyStr.is_space c = false) as ->; [|done].
  destruct (is_digit_inv c Hc) as (k & Hk & ->). digit_cases k; reflexivity.
Qed.

Lemma int_digits_digits b ds :
  all_digits ds = true -> PyStr.int_digits b ds = match ds with EmptyString => b | _ => true end.
Proof.
  revert b. induction ds as [|c ds IH]; intros b; [done|]. cbn [all_digits PyStr.int_digits].
  intros H. apply andb_true_iff in H. destruct H as [Hc Hds].
  rewrite Hc, IH by done. by destruct ds.
Qed.

Lemma int_accepts_digits ds :
  ds <> EmptyString -> all_digits ds = true -> PyStr.int_accepts ds = true.
Proof.
  intros Hne Hds. unfold PyStr.int_accepts, PyStr.strip.
  rewrite rstrip_digits, lstrip_digits by done.
  destruct ds as [|c ds]; [done|].
  pose proof Hds as Hds'. cbn [all_digits] in Hds'.
  apply andb_true_iff in Hds'. destruct Hds' as [Hc _].
  assert ((Ascii.eqb c "+" || Ascii.eqb c "-") = false) as ->.
  { destruct (is_digit_inv c Hc) as (k & Hk & ->). digit_cases k; reflexivity. }
  by rewrite int_digits_digits.
Qed.

(** X14: a name [IMG_], digits, a dot and an extension is eligible. *)
Theorem numbered_photo_is_eligible digits ext :
  digits <> EmptyString -> all_digits digits = true ->
  ext <> EmptyString -> no_dot ext ->
  is_valid_for_interpolation ("IMG_" +:+ digits +:+ String "." ext) = true.
Proof.
  intros Hne Hds He Hd. unfold is_valid_for_interpolation.
  rewrite <- app_assoc_str.
  destruct (stem_suffix_dot ("IMG_" +:+ digits) ext) as [-> _]; [done|done|done|].
  unfold _COMMON_INTERPOLATION_PREFIX, PyStr.split.
  rewrite !app_String, app_Empty.
  cbn [PyStr.split_go String.prefix String.length Nat.sub].
  repeat (destruct (ascii_dec _ _); [|congruence]).
  assert (Hpre : String.prefix EmptyString digits = true) by (by destruct digits).
  rewrite Hpre. rewrite split_go_digits by done. cbn [nth_error].
  rewrite app_Empty. rewrite split_go_digits by done. rewrite app_Empty.
  by apply int_accepts_digits.
Qed.


Lemma split_go_absent sep cur s :
  contains sep s = false -> PyStr.split_go sep 0 cur s = [cur +:+ s].
Proof.
  revert cur. induction s as [|c s IH]; intros cur Hno.
  - cbn. by rewrite app_Empty_r.
  - cbn [contains] in Hno. apply orb_false_iff in Hno. destruct Hno as [Hp Hno].
    cbn [PyStr.split_go]. rewrite Hp, IH by done. by rewrite app_assoc_str.
Qed.

(** X15: a name whose stem holds no [IMG_] is not eligible. *)
Theorem no_prefix_not_eligible photo_path :
  contains _COMMON_INTERPOLATION_PREFIX (path_stem photo_path) = false ->
  is_valid_for_interpolation photo_path = false.
Proof.
  intros Hno. unfold is_valid_for_interpolation, PyStr.split.
  by rewrite split_go_absent.
Qed.

(** ** The whole run *)




(** ** The theorems at work on small inputs *)

Ltac list_mem :=
  match goal with
  | |- ?x ∈ ?l =>
      let x' := eval vm_compute in x in
      let l' := eval vm_compute in l in
      change (x' ∈ l')
  end;
  repeat first [apply list_elem_of_here | apply list_elem_of_further].


Lemma output_name_keeps_stored_time_witness :
  exists y,
    get_year_from_time
      (try_remove_interpolated_suffix "2021-01-01_10:00:05_interpolated_time") = Ok y /\
    Copy "IMG_0002.jpg"
      (["out"] ++ [str_of_int y;
                   "2021-01-01_10:00:05_interpolated_time" +:+ "."
                   +:+ get_extension_from_path "IMG_0002.jpg"])
      ∈ fs (save_photos_with_times ["out"] tagged_world).2.
Proof.
  apply (output_name_keeps_stored_time ["out"] tagged_world
           (save_photos_with_times ["out"] tagged_world).2 "IMG_0002.jpg").
  - vm_compute. reflexivity.
  - vm_compute. reflexivity.
Defined.




Lemma interpolation_fails_iff_no_room_witness :
  let outcome :=
    interpolate_body 0 (sorted_keys (photo_times two_seconds)) (mkCounters 0 0)
      (length ["IMG_0001.jpg"], "IMG_0002.jpg") two_seconds in
  (1609495202 - 2 < 1609495200 + 2 ->
     outcome.1 = Ok (failed (mkCounters 0 0))
     /\ photo_times outcome.2 = photo_times two_seconds) /\
  (1609495200 + 2 <= 1609495202 - 2 ->
     outcome.1 = Ok (interpolated (mkCounters 0 0)) /\
     exists t, photo_times outcome.2
               = <["IMG_0002.jpg" := Some (t +:+ _INTERPOLATED_SUFFIX)]>
                   (photo_times two_seconds)).
Proof.
  apply (interpolation_fails_iff_no_room 0 two_seconds ["IMG_0001.jpg"] "IMG_0002.jpg"
           ["IMG_0003.jpg"] (mkCounters 0 0)
           "2021-01-01_10:00:00" "2021-01-01_10:00:02" 1609495200 1609495202).
  - vm_compute. reflexivity.
  - vm_compute. reflexivity.
  - vm_compute. reflexivity.
  - vm_compute. reflexivity.
  - vm_compute. reflexivity.
  - vm_compute. reflexivity.
  - vm_compute. reflexivity.
  - unfold MIN_TS. lia.
  - unfold MAX_TS. lia.
Defined.


Lemma metadata_failures_witness :
  (exists w', parse_body some_directory (mkParseCounters 0 0) "IMG_2.jpg"
                (world_of ∅ (fun _ => 0))
              = (Ok (missing_one (mkParseCounters 0 0)), w')
              /\ photo_times w' = <["IMG_2.jpg" := None]> ∅) /\
  parse_body some_directory (mkParseCounters 0 0) "clip.MOV" (world_of ∅ (fun _ => 0))
  = (Raise (OtherError "ffmpeg.Error"), world_of ∅ (fun _ => 0)).
Proof.
  split.
  - apply (proj1 (metadata_failures some_directory (mkParseCounters 0 0) "IMG_2.jpg"
                    (world_of ∅ (fun _ => 0)) eq_refl)).
    + list_mem.
    + left. reflexivity.
  - apply (proj2 (metadata_failures some_directory (mkParseCounters 0 0) "clip.MOV"
                    (world_of ∅ (fun _ => 0)) eq_refl)).
    + list_mem.
    + reflexivity.
Defined.

Lemma ineligible_time_unchanged_witness :
  is_valid_for_interpolation "random_name.jpg" = false /\
  interpolate 0 (fun _ => 0) {["random_name.jpg" := None]} !! "random_name.jpg"
  = ({["random_name.jpg" := None]} : gmap Path (option string)) !! "random_name.jpg".
Proof.
  split; [reflexivity|].
  apply (ineligible_time_unchanged 0 (fun _ => 0) {["random_name.jpg" := None]}
           "random_name.jpg").
  reflexivity.
Defined.

Lemma registry_frame_witness :
  interpolate 0 (fun _ => 3) (scene "2021-01-01_10:00:00" "2021-01-01_10:00:10")
    !! "IMG_0001.jpg" = Some (Some "2021-01-01_10:00:00").
Proof.
  apply (proj1 (proj2 (registry_frame 0 (fun _ => 3)
           (scene "2021-01-01_10:00:00" "2021-01-01_10:00:10")))).
  vm_compute. reflexivity.
Defined.




Lemma interpolate_idempotent_east_witness :
  interpolate 0 (fun _ => 5)
    (interpolate 0 (fun _ => 3) (scene "2021-01-01_10:00:00" "2021-01-01_10:00:10"))
  = interpolate 0 (fun _ => 3) (scene "2021-01-01_10:00:00" "2021-01-01_10:00:10").
Proof. apply interpolate_idempotent_east. lia. Defined.

Lemma synthesized_time_read_locally_witness :
  exists prevTs nextTs,
    parse_timestamp 3600 "2021-01-01_10:00:00" = Some prevTs /\
    parse_timestamp 3600 "2021-01-01_10:00:10" = Some nextTs /\
    prevTs + 2 <= 1609488005 + 3600 <= nextTs - 2.
Proof.
  apply (synthesized_time_read_locally 3600 "2021-01-01_10:00:00" "2021-01-01_10:00:10"
           (world_of ∅ (fun _ => 3)) "2021-01-01_09:00:05"
           (get_random_time_between 3600 "2021-01-01_10:00:00" "2021-01-01_10:00:10"
              (world_of ∅ (fun _ => 3))).2).
  - vm_compute. reflexivity.
  - vm_compute. reflexivity.
Defined.


Lemma timeless_photo_goes_without_time_witness :
  Copy "holiday.png"
    (["out"] ++ ["without-time";
                 path_stem "holiday.png" +:+ "." +:+ get_extension_from_path "holiday.png"])
    ∈ fs (save_photos_with_times ["out"] timeless_world).2.
Proof.
  apply (timeless_photo_goes_without_time ["out"] timeless_world
           (save_photos_with_times ["out"] timeless_world).2 "holiday.png").
  - vm_compute. reflexivity.
  - vm_compute. reflexivity.
Defined.



Lemma parse_photo_times_registry_witness :
  photo_times (parse_photo_times plain_directory (world_of ∅ (fun _ => 0))).2
    !! "IMG_1.jpg"
  = if decide (registered plain_directory "IMG_1.jpg")
    then Some (recorded_time plain_directory "IMG_1.jpg") else None.
Proof.
  apply (parse_photo_times_registry plain_directory (world_of ∅ (fun _ => 0))
           (parse_photo_times plain_directory (world_of ∅ (fun _ => 0))).2).
  vm_compute. reflexivity.
Defined.

Lemma normalize_photo_time_exif_witness :
  normalize_photo_time "2021:01:01 10:00:00" = "2021-01-01_10:00:00".
Proof.
  apply (normalize_photo_time_exif "2" "0" "2" "1" "0" "1" "0" "1" "1" "0" "0" "0" "0" "0").
  repeat constructor.
Defined.

Lemma normalize_video_time_iso_witness :
  normalize_video_time "2021-03-04T05:06:07.000000Z" = "2021-03-04_05:06:07".
Proof.
  apply (normalize_video_time_iso "2" "0" "2" "1" "0" "3" "0" "4" "0" "5" "0" "6" "0" "7"
           ".000000Z").
  repeat constructor.
Defined.

Lemma stem_and_extension_witness :
  path_stem ("IMG_0001" +:+ String "." "jpg") = "IMG_0001" /\
  get_extension_from_path ("IMG_0001" +:+ String "." "jpg") = "jpg".
Proof. apply stem_and_extension; [discriminate|discriminate|reflexivity]. Defined.

Lemma numbered_photo_is_eligible_witness :
  is_valid_for_interpolation ("IMG_" +:+ "0001" +:+ String "." "jpg") = true.
Proof.
  apply numbered_photo_is_eligible; [discriminate|reflexivity|discriminate|reflexivity].
Defined.

Lemma no_prefix_not_eligible_witness :
  is_valid_for_interpolation "random_name.jpg" = false.
Proof. apply no_prefix_not_eligible. reflexivity. Defined.
